(** * WeFund backend: wallet ledger and project funding state machine

    A shallow embedding of the request handlers that move money between a
    user's wallet and a project's funded amount:

    - [routers/auth.py]            [register]
    - [utils/auth.py]              [get_current_user], [require_admin]
    - [routers/users.py]           [deposit], [withdraw], [get_wallet]
    - [routers/projects.py]        [invest_in_project]
    - [routers/admin.py]           [create_project], [verify_project],
                                   [block_project], [delete_project],
                                   [verify_user], [block_user]
    - [routers/admin_enhanced.py]  [review_project], [manual_confirm_deposit]
    - [routers/mobile_money.py]    [process_deposit_to_personal_momo],
                                   [mobile_money_deposit], [mobile_money_withdraw]

    Conventions of the embedding.

    - The document store is a record of collections.  [users] and [projects]
      are read and updated by [_id] (registration also looks an email up), so
      they are finite maps from ids to documents; [transactions] is searched
      by other fields, and [find_one] and [update_one] take the first match in
      insertion order, so it is a list.
    - Of a document the fields are kept whose value some handler below tests
      or computes with (ids, amounts, balances, status, type, reference,
      flags) and those a property below speaks about (title, dates, the
      confirmation stamp); free-text and descriptive fields (password hash,
      description, category, provider, notes and the like) are left out.
    - A handler is a function from the store to a store and a result.  A raised
      exception does not roll anything back: the store reached so far is kept.
      The result is what the Python function returns or raises; how the
      framework renders it is not part of the model.
    - Requests are handled one after the other (no interleaving of awaits).
    - The routes of profile, verification, KYC, notification, messaging and
      bank-account management are left out: they write no balance, no funding
      field and no transaction (at most a user's name, age or verified flag,
      which no handler below reads).
    - Amounts are Python floats in the source and doubles in the store; here
      they are the binary64 floats of [PrimFloat], with the same rounding,
      infinities and NaN.  [$inc] and Python's [+] are [PrimFloat.add],
      Python's [-] is [PrimFloat.sub] and [PrimFloat.opp], [<] and [<=] are
      [ltb] and [leb], which are false as soon as an operand is NaN, and
      [x >= y] is [leb y x].  The integer [0] that [register] and
      [create_project] write adds and compares like the double [0].
    - [datetime.utcnow()] is an input of each handler: the clock reading as the
      number whose decimal digits are [%Y%m%d%H%M%S]. *)

From Stdlib Require Import ZArith NArith String List Lia DecimalString Floats.
From stdpp Require Import base option list gmap strings.

Open Scope Z_scope.
Open Scope string_scope.
Open Scope list_scope.

(** ** Documents *)

Definition ObjectId := N.
Definition Time := N.

(** A document of [db.users] as [register] writes it. *)
Record User := mkUser {
  name : string;
  email : string;
  age : Z;
  role : string;
  walletBalance : float;
  totalInvested : float;
  totalReturns : float;
  user_verified : bool;
  user_blocked : bool;
  createdAt : Time
}.

(** An element of a project's [investors] array. *)
Record Investor := mkInvestor {
  inv_userId : ObjectId;
  inv_amount : float;
  inv_date : Time
}.

(** A document of [db.projects] as [create_project] writes it. *)
Record Project := mkProject {
  title : string;
  fundingGoal : float;
  fundedAmount : float;
  minInvestment : float;
  status : string;
  project_verified : bool;
  project_blocked : bool;
  investors : list Investor
}.

(** A document of [db.transactions].  Fields that only some writers set are
    optional. *)
Record Transaction := mkTransaction {
  tx_id : ObjectId;
  userId : ObjectId;
  amount : float;
  tx_type : string;
  tx_status : string;
  projectId : option ObjectId;
  projectTitle : option string;
  phone_number : option string;
  transaction_ref : option string;
  confirmed_by : option ObjectId;
  confirmed_at : option Time;
  date : Time
}.

(** A document of [db.momo_transfers]. *)
Record MomoTransfer := mkMomoTransfer {
  from_phone : string;
  mt_amount : float;
  mt_transaction_ref : string;
  mt_user_id : ObjectId;
  mt_status : string;
  processed_at : Time
}.

Record Db := mkDb {
  users : gmap ObjectId User;
  projects : gmap ObjectId Project;
  transactions : list Transaction;
  momo_transfers : list MomoTransfer;
  next_oid : ObjectId
}.

Definition empty_db : Db := mkDb ∅ ∅ [] [] 0%N.

(** ** Errors and the handler monad *)

(** The [HTTPException]s the handlers raise, by kind; [InternalError] is an
    uncaught Python exception (subscripting [None], an integer that BSON
    cannot encode). *)
Inductive Error :=
| NotFound            (* 404 *)
| ProjectNotOpen      (* 400 "Project is not open for investment" *)
| BelowMinimum        (* 400 "Minimum investment is ..." *)
| InsufficientFunds   (* 400 "Insufficient wallet balance" / "Insufficient balance" *)
| InvalidAmount       (* 400 "Invalid amount" *)
| AlreadyCompleted    (* 400 "Transaction already completed" *)
| MinimumDeposit      (* 400 "Minimum deposit is 100 XAF" *)
| MinimumWithdrawal   (* 400 "Minimum withdrawal is 500 XAF" *)
| TooYoung            (* 400 "You must be at least 15 years old to register" *)
| EmailTaken          (* 400 "Email already registered" *)
| DepositFailed       (* 400, the message of the failed mobile-money deposit *)
| Unauthorized        (* 401 *)
| Forbidden           (* 403 *)
| InternalError.      (* 500 *)

Definition Handler (A : Type) : Type := Db → Db * (Error + A).

Definition ret {A} (a : A) : Handler A := λ s, (s, inr a).
Definition raise {A} (e : Error) : Handler A := λ s, (s, inl e).
Definition bind {A B} (m : Handler A) (k : A → Handler B) : Handler B :=
  λ s, match m s with
       | (s', inl e) => (s', inl e)
       | (s', inr a) => k a s'
       end.

Notation "'let*' x ':=' m 'in' k" := (bind m (λ x, k))
  (at level 10, x name, m at level 100, k at level 200).
Notation "'do' m 'in' k" := (bind m (λ _, k))
  (at level 10, m at level 100, k at level 200).

(** [d[key]] on the result of a [find_one]: subscripting [None] raises. *)
Definition item {A} (d : option A) : Handler A :=
  match d with
  | Some a => ret a
  | None => raise InternalError
  end.

(** ** Collection primitives *)

Definition set_users (f : gmap ObjectId User → gmap ObjectId User) (s : Db) : Db :=
  mkDb (f (users s)) (projects s) (transactions s) (momo_transfers s) (next_oid s).
Definition set_projects (f : gmap ObjectId Project → gmap ObjectId Project) (s : Db) : Db :=
  mkDb (users s) (f (projects s)) (transactions s) (momo_transfers s) (next_oid s).
Definition set_transactions (f : list Transaction → list Transaction) (s : Db) : Db :=
  mkDb (users s) (projects s) (f (transactions s)) (momo_transfers s) (next_oid s).

(** [insert_one] draws a fresh [_id]. *)
Definition fresh_oid : Handler ObjectId :=
  λ s, (mkDb (users s) (projects s) (transactions s) (momo_transfers s)
             (N.succ (next_oid s)), inr (next_oid s)).

(** [insert_one] encodes the document before anything is sent to the store:
    an [int] that does not fit eight bytes raises [OverflowError]. *)
Definition bson_int (n : Z) : Handler unit :=
  if decide (- 2 ^ 63 <= n < 2 ^ 63) then ret tt else raise InternalError.

Definition users_find_one (id : ObjectId) : Handler (option User) :=
  λ s, (s, inr (users s !! id)).
(** [update_one({"_id": id}, ...)]: nothing happens when no document matches. *)
Definition users_update_one (id : ObjectId) (f : User → User) : Handler unit :=
  λ s, (set_users (alter f id) s, inr tt).
Definition users_insert_one (u : User) : Handler ObjectId :=
  do bson_int (age u) in
  let* id := fresh_oid in λ s, (set_users <[id := u]> s, inr id).
Definition users_find_one_by_email (e : string) : Handler (option User) :=
  λ s, (s, inr (snd <$> List.find (λ kv, String.eqb (email (snd kv)) e)
                                    (map_to_list (users s)))).

Definition projects_find_one (id : ObjectId) : Handler (option Project) :=
  λ s, (s, inr (projects s !! id)).
Definition projects_update_one (id : ObjectId) (f : Project → Project) : Handler unit :=
  λ s, (set_projects (alter f id) s, inr tt).
Definition projects_insert_one (p : Project) : Handler ObjectId :=
  let* id := fresh_oid in λ s, (set_projects <[id := p]> s, inr id).
Definition projects_delete_one (id : ObjectId) : Handler unit :=
  λ s, (set_projects (delete id) s, inr tt).

(** The first document that satisfies the filter is the one updated. *)
Fixpoint update_first {A} (p : A → bool) (f : A → A) (l : list A) : list A :=
  match l with
  | [] => []
  | x :: l' => if p x then f x :: l' else x :: update_first p f l'
  end.

Definition transactions_find_one (p : Transaction → bool) : Handler (option Transaction) :=
  λ s, (s, inr (List.find p (transactions s))).
Definition transactions_update_one (p : Transaction → bool) (f : Transaction → Transaction)
  : Handler unit :=
  λ s, (set_transactions (update_first p f) s, inr tt).
(** The document is given without its [_id], as a function of it. *)
Definition transactions_insert_one (doc : ObjectId → Transaction) : Handler ObjectId :=
  let* id := fresh_oid in λ s, (set_transactions (λ l, l ++ [doc id]) s, inr id).
Definition momo_transfers_insert_one (doc : MomoTransfer) : Handler unit :=
  λ s, (mkDb (users s) (projects s) (transactions s) (momo_transfers s ++ [doc])
             (next_oid s), inr tt).

(** ** Update operators *)

(** [$inc] on a double is the addition of doubles. *)
Definition inc_walletBalance (d : float) (u : User) : User :=
  mkUser (name u) (email u) (age u) (role u) (walletBalance u + d) (totalInvested u)
         (totalReturns u) (user_verified u) (user_blocked u) (createdAt u).
Definition inc_totalInvested (d : float) (u : User) : User :=
  mkUser (name u) (email u) (age u) (role u) (walletBalance u) (totalInvested u + d)
         (totalReturns u) (user_verified u) (user_blocked u) (createdAt u).
Definition set_user_verified (b : bool) (u : User) : User :=
  mkUser (name u) (email u) (age u) (role u) (walletBalance u) (totalInvested u)
         (totalReturns u) b (user_blocked u) (createdAt u).
Definition set_user_blocked (b : bool) (u : User) : User :=
  mkUser (name u) (email u) (age u) (role u) (walletBalance u) (totalInvested u)
         (totalReturns u) (user_verified u) b (createdAt u).

Definition inc_fundedAmount (d : float) (p : Project) : Project :=
  mkProject (title p) (fundingGoal p) (fundedAmount p + d) (minInvestment p) (status p)
            (project_verified p) (project_blocked p) (investors p).
Definition set_status (st : string) (p : Project) : Project :=
  mkProject (title p) (fundingGoal p) (fundedAmount p) (minInvestment p) st
            (project_verified p) (project_blocked p) (investors p).
Definition push_investors (i : Investor) (p : Project) : Project :=
  mkProject (title p) (fundingGoal p) (fundedAmount p) (minInvestment p) (status p)
            (project_verified p) (project_blocked p) (investors p ++ [i]).
Definition set_project_verified (b : bool) (p : Project) : Project :=
  mkProject (title p) (fundingGoal p) (fundedAmount p) (minInvestment p) (status p)
            b (project_blocked p) (investors p).
Definition set_project_blocked (b : bool) (p : Project) : Project :=
  mkProject (title p) (fundingGoal p) (fundedAmount p) (minInvestment p) (status p)
            (project_verified p) b (investors p).

(** [$set] of [manual_confirm_deposit]. *)
Definition set_confirmed (by_ : ObjectId) (at_ : Time) (t : Transaction) : Transaction :=
  mkTransaction (tx_id t) (userId t) (amount t) (tx_type t) "completed" (projectId t)
                (projectTitle t) (phone_number t) (transaction_ref t) (Some by_) (Some at_)
                (date t).

(** ** Authentication ([utils/auth.py]) *)

(** The payload of a decoded token, and what [get_current_user] returns. *)
Record CurrentUser := mkCurrentUser {
  cu_userId : ObjectId;
  cu_role : string
}.

Definition get_current_user (payload : CurrentUser) : Handler CurrentUser :=
  let* user := users_find_one (cu_userId payload) in
  match user with
  | None => raise Unauthorized
  | Some user => if user_blocked user then raise Forbidden else ret payload
  end.

Definition require_admin (current_user : CurrentUser) : Handler CurrentUser :=
  if decide (cu_role current_user ≠ "admin") then raise Forbidden else ret current_user.

(** A route declared with [Depends(get_current_user)]. *)
Definition authenticated {A} (h : CurrentUser → Handler A) (payload : CurrentUser)
  : Handler A :=
  let* current_user := get_current_user payload in h current_user.

(** ** Registration ([routers/auth.py]) *)

Record UserRegister := mkUserRegister {
  ur_name : string;
  ur_email : string;
  ur_age : Z
}.

Definition register (user_data : UserRegister) (now : Time) : Handler ObjectId :=
  if decide (ur_age user_data < 15) then raise TooYoung else
  let* existing_user := users_find_one_by_email (ur_email user_data) in
  match existing_user with
  | Some _ => raise EmailTaken
  | None =>
      users_insert_one
        {| name := ur_name user_data; email := ur_email user_data; age := ur_age user_data;
           role := "member"; walletBalance := 0; totalInvested := 0; totalReturns := 0;
           user_verified := false; user_blocked := false; createdAt := now |}
  end.

(** ** Wallet ([routers/users.py]) *)

Record WalletResponse := mkWalletResponse {
  wr_walletBalance : float;
  wr_transaction : Transaction
}.

Definition wallet_transaction (uid : ObjectId) (a : float) (ty : string) (now : Time)
  (id : ObjectId) : Transaction :=
  {| tx_id := id; userId := uid; amount := a; tx_type := ty; tx_status := "completed";
     projectId := None; projectTitle := None; phone_number := None;
     transaction_ref := None; confirmed_by := None; confirmed_at := None;
     date := now |}.

Definition has_id (id : ObjectId) (t : Transaction) : bool := bool_decide (tx_id t = id).

Definition deposit (transaction_amount : float) (current_user : CurrentUser) (now : Time)
  : Handler WalletResponse :=
  if (transaction_amount <=? 0)%float then raise InvalidAmount else
  do users_update_one (cu_userId current_user) (inc_walletBalance transaction_amount) in
  let* inserted_id :=
    transactions_insert_one
      (wallet_transaction (cu_userId current_user) transaction_amount "deposit" now) in
  let* user := users_find_one (cu_userId current_user) in
  let* trans_doc := transactions_find_one (has_id inserted_id) in
  let* user := item user in
  let* trans_doc := item trans_doc in
  ret {| wr_walletBalance := walletBalance user; wr_transaction := trans_doc |}.

Definition withdraw (transaction_amount : float) (current_user : CurrentUser) (now : Time)
  : Handler WalletResponse :=
  if (transaction_amount <=? 0)%float then raise InvalidAmount else
  let* user := users_find_one (cu_userId current_user) in
  let* user := item user in
  if (walletBalance user <? transaction_amount)%float then raise InsufficientFunds else
  do users_update_one (cu_userId current_user) (inc_walletBalance (- transaction_amount)) in
  let* inserted_id :=
    transactions_insert_one
      (wallet_transaction (cu_userId current_user) transaction_amount "withdraw" now) in
  let* updated_user := users_find_one (cu_userId current_user) in
  let* trans_doc := transactions_find_one (has_id inserted_id) in
  let* updated_user := item updated_user in
  let* trans_doc := item trans_doc in
  ret {| wr_walletBalance := walletBalance updated_user; wr_transaction := trans_doc |}.

(** ** Investment ([routers/projects.py]) *)

Record InvestResponse := mkInvestResponse {
  ir_walletBalance : float;
  ir_totalInvested : float
}.

Definition investment_transaction (uid project_id : ObjectId) (a : float) (ttl : string)
  (now : Time) (id : ObjectId) : Transaction :=
  {| tx_id := id; userId := uid; amount := a; tx_type := "investment";
     tx_status := "completed"; projectId := Some project_id; projectTitle := Some ttl;
     phone_number := None; transaction_ref := None; confirmed_by := None;
     confirmed_at := None; date := now |}.

Definition invest_in_project (project_id : ObjectId) (investment_amount : float)
  (current_user : CurrentUser) (now : Time) : Handler InvestResponse :=
  let* project := projects_find_one project_id in
  match project with
  | None => raise NotFound
  | Some project =>
      if decide (status project ≠ "open") then raise ProjectNotOpen else
      if (investment_amount <? minInvestment project)%float then raise BelowMinimum else
      let* user := users_find_one (cu_userId current_user) in
      let* user := item user in
      if (walletBalance user <? investment_amount)%float then raise InsufficientFunds else
      do users_update_one (cu_userId current_user)
           (λ u, inc_totalInvested investment_amount
                   (inc_walletBalance (- investment_amount) u)) in
      let new_funded := (fundedAmount project + investment_amount)%float in
      let new_status :=
        if (fundingGoal project <=? new_funded)%float then "closed" else "open" in
      do projects_update_one project_id
           (λ p, push_investors
                   (mkInvestor (cu_userId current_user) investment_amount now)
                   (set_status new_status (inc_fundedAmount investment_amount p))) in
      do transactions_insert_one
           (investment_transaction (cu_userId current_user) project_id investment_amount
                                   (title project) now) in
      let* updated_user := users_find_one (cu_userId current_user) in
      let* updated_user := item updated_user in
      ret {| ir_walletBalance := walletBalance updated_user;
             ir_totalInvested := totalInvested updated_user |}
  end.

(** ** Project administration ([routers/admin.py], [routers/admin_enhanced.py]) *)

Record ProjectCreate := mkProjectCreate {
  pc_title : string;
  pc_fundingGoal : float;
  pc_minInvestment : float
}.

Inductive ProjectStatus :=
| PENDING | UNDER_REVIEW | APPROVED | REJECTED | OPEN | FUNDED | CLOSED | CANCELLED.

Definition status_value (st : ProjectStatus) : string :=
  match st with
  | PENDING => "pending" | UNDER_REVIEW => "under_review" | APPROVED => "approved"
  | REJECTED => "rejected" | OPEN => "open" | FUNDED => "funded" | CLOSED => "closed"
  | CANCELLED => "cancelled"
  end.

Definition create_project (project_data : ProjectCreate) (current_user : CurrentUser)
  : Handler ObjectId :=
  do require_admin current_user in
  projects_insert_one
    {| title := pc_title project_data; fundingGoal := pc_fundingGoal project_data;
       fundedAmount := 0; minInvestment := pc_minInvestment project_data;
       status := "pending"; project_verified := false; project_blocked := false;
       investors := [] |}.

Definition verify_project (project_id : ObjectId) (current_user : CurrentUser)
  : Handler (option Project) :=
  do require_admin current_user in
  do projects_update_one project_id (λ p, set_status "open" (set_project_verified true p)) in
  projects_find_one project_id.

Definition block_project (project_id : ObjectId) (blocked : bool)
  (current_user : CurrentUser) : Handler (option Project) :=
  do require_admin current_user in
  do projects_update_one project_id (set_project_blocked blocked) in
  projects_find_one project_id.

Definition delete_project (project_id : ObjectId) (current_user : CurrentUser)
  : Handler unit :=
  do require_admin current_user in
  projects_delete_one project_id.

Definition review_project (project_id : ObjectId) (review_status : ProjectStatus)
  (current_user : CurrentUser) : Handler unit :=
  do require_admin current_user in
  let* project := projects_find_one project_id in
  match project with
  | None => raise NotFound
  | Some _ =>
      projects_update_one project_id
        (λ p, set_project_verified (bool_decide (status_value review_status = "approved"))
                (set_status (status_value review_status) p))
  end.

(** [format_user(user)] subscripts the document it is given. *)
Definition format_user (user : option User) : Handler User := item user.

Definition verify_user (user_id : ObjectId) (current_user : CurrentUser)
  : Handler User :=
  do require_admin current_user in
  do users_update_one user_id (set_user_verified true) in
  let* user := users_find_one user_id in
  format_user user.

Definition block_user (user_id : ObjectId) (blocked : bool) (current_user : CurrentUser)
  : Handler User :=
  do require_admin current_user in
  do users_update_one user_id (set_user_blocked blocked) in
  let* user := users_find_one user_id in
  format_user user.

(** ** Mobile money ([routers/mobile_money.py]) *)

(** [datetime.utcnow().strftime('%Y%m%d%H%M%S')]. *)
Definition strftime (now : Time) : string := NilEmpty.string_of_uint (N.to_uint now).

Definition momo_deposit_transaction (uid : ObjectId) (a : float) (user_phone ref : string)
  (now : Time) (id : ObjectId) : Transaction :=
  {| tx_id := id; userId := uid; amount := a; tx_type := "momo_deposit";
     tx_status := "completed"; projectId := None; projectTitle := None;
     phone_number := Some user_phone; transaction_ref := Some ref; confirmed_by := None;
     confirmed_at := None; date := now |}.

(** [PersonalMoMoService.process_deposit_to_personal_momo]; the result is the
    [success] flag.  The [except] branch is taken on a failure of the store,
    which the embedding does not have. *)
Definition process_deposit_to_personal_momo (a : float) (user_phone : string)
  (user_id : ObjectId) (transaction_ref : string) (now : Time) : Handler bool :=
  do momo_transfers_insert_one
       {| from_phone := user_phone; mt_amount := a; mt_transaction_ref := transaction_ref;
          mt_user_id := user_id; mt_status := "completed"; processed_at := now |} in
  do users_update_one user_id (inc_walletBalance a) in
  do transactions_insert_one
       (momo_deposit_transaction user_id a user_phone transaction_ref now) in
  ret true.

Record MomoDepositResponse := mkMomoDepositResponse {
  md_transaction_ref : string;
  md_amount : float
}.

Definition mobile_money_deposit (phone : string) (deposit_amount : float)
  (current_user : CurrentUser) (now : Time) : Handler MomoDepositResponse :=
  let* user := users_find_one (cu_userId current_user) in
  match user with
  | None => raise NotFound
  | Some _ =>
      if (deposit_amount <=? 0)%float then raise InvalidAmount else
      if (deposit_amount <? 100)%float then raise MinimumDeposit else
      let transaction_ref := ("WFD" ++ strftime now)%string in
      let* success :=
        process_deposit_to_personal_momo deposit_amount phone (cu_userId current_user)
                                         transaction_ref now in
      if negb success then raise DepositFailed else
      ret {| md_transaction_ref := transaction_ref; md_amount := deposit_amount |}
  end.

Record MomoWithdrawResponse := mkMomoWithdrawResponse {
  mw_transaction_ref : string;
  mw_amount : float;
  mw_new_balance : float
}.

Definition mobile_withdrawal_transaction (uid : ObjectId) (a : float) (phone ref : string)
  (now : Time) (id : ObjectId) : Transaction :=
  {| tx_id := id; userId := uid; amount := a; tx_type := "mobile_withdrawal";
     tx_status := "pending"; projectId := None; projectTitle := None;
     phone_number := Some phone; transaction_ref := Some ref; confirmed_by := None;
     confirmed_at := None; date := now |}.

Definition mobile_money_withdraw (phone : string) (withdraw_amount : float)
  (current_user : CurrentUser) (now : Time) : Handler MomoWithdrawResponse :=
  let* user := users_find_one (cu_userId current_user) in
  match user with
  | None => raise NotFound
  | Some user =>
      if (walletBalance user <? withdraw_amount)%float then raise InsufficientFunds else
      if (withdraw_amount <=? 0)%float then raise InvalidAmount else
      if (withdraw_amount <? 500)%float then raise MinimumWithdrawal else
      let transaction_ref := ("WFW" ++ strftime now)%string in
      do transactions_insert_one
           (mobile_withdrawal_transaction (cu_userId current_user) withdraw_amount phone
                                          transaction_ref now) in
      do users_update_one (cu_userId current_user) (inc_walletBalance (- withdraw_amount)) in
      ret {| mw_transaction_ref := transaction_ref; mw_amount := withdraw_amount;
             mw_new_balance := (walletBalance user - withdraw_amount)%float |}
  end.

(** ** Manual confirmation ([routers/admin_enhanced.py]) *)

Record ConfirmResponse := mkConfirmResponse {
  cr_transaction_ref : string;
  cr_amount : float;
  cr_user_id : ObjectId
}.

(** The filter [{"transaction_ref": ref}]. *)
Definition has_ref (ref : string) (t : Transaction) : bool :=
  bool_decide (transaction_ref t = Some ref).
(** The filter [{"transaction_ref": ref, "type": "momo_deposit"}]. *)
Definition is_momo_deposit_with_ref (ref : string) (t : Transaction) : bool :=
  has_ref ref t && bool_decide (tx_type t = "momo_deposit").

Definition manual_confirm_deposit (ref : string) (current_user : CurrentUser) (now : Time)
  : Handler ConfirmResponse :=
  do require_admin current_user in
  let* transaction := transactions_find_one (is_momo_deposit_with_ref ref) in
  match transaction with
  | None => raise NotFound
  | Some transaction =>
      if decide (tx_status transaction = "completed") then raise AlreadyCompleted else
      do transactions_update_one (has_ref ref)
           (set_confirmed (cu_userId current_user) now) in
      do users_update_one (userId transaction) (inc_walletBalance (amount transaction)) in
      ret {| cr_transaction_ref := ref; cr_amount := amount transaction;
             cr_user_id := userId transaction |}
  end.

(** ** The service as a transition system *)

(** A request carries the payload of its token; any user id and any role may
    be presented, so the runs below include those of every real client. *)
Inductive Request :=
| Register (user_data : UserRegister)
| Deposit (payload : CurrentUser) (a : float)
| Withdraw (payload : CurrentUser) (a : float)
| Invest (payload : CurrentUser) (project_id : ObjectId) (a : float)
| MomoDeposit (payload : CurrentUser) (phone : string) (a : float)
| MomoWithdraw (payload : CurrentUser) (phone : string) (a : float)
| ConfirmPendingDeposit (payload : CurrentUser) (ref : string)
| CreateProject (payload : CurrentUser) (project_data : ProjectCreate)
| VerifyProject (payload : CurrentUser) (project_id : ObjectId)
| BlockProject (payload : CurrentUser) (project_id : ObjectId) (blocked : bool)
| ReviewProject (payload : CurrentUser) (project_id : ObjectId) (st : ProjectStatus)
| DeleteProject (payload : CurrentUser) (project_id : ObjectId)
| VerifyUser (payload : CurrentUser) (user_id : ObjectId)
| BlockUser (payload : CurrentUser) (user_id : ObjectId) (blocked : bool).

(** The response is dropped: what matters below is the store and whether the
    request was refused. *)
Definition void {A} (h : Handler A) : Handler unit := let* _ := h in ret tt.

Definition handle (r : Request) (now : Time) : Handler unit :=
  match r with
  | Register d => void (register d now)
  | Deposit c a => void (authenticated (λ cu, deposit a cu now) c)
  | Withdraw c a => void (authenticated (λ cu, withdraw a cu now) c)
  | Invest c p a => void (authenticated (λ cu, invest_in_project p a cu now) c)
  | MomoDeposit c ph a => void (authenticated (λ cu, mobile_money_deposit ph a cu now) c)
  | MomoWithdraw c ph a => void (authenticated (λ cu, mobile_money_withdraw ph a cu now) c)
  | ConfirmPendingDeposit c ref =>
      void (authenticated (λ cu, manual_confirm_deposit ref cu now) c)
  | CreateProject c d => void (authenticated (create_project d) c)
  | VerifyProject c p => void (authenticated (verify_project p) c)
  | BlockProject c p b => void (authenticated (block_project p b) c)
  | ReviewProject c p st => void (authenticated (review_project p st) c)
  | DeleteProject c p => void (authenticated (delete_project p) c)
  | VerifyUser c u => void (authenticated (verify_user u) c)
  | BlockUser c u b => void (authenticated (block_user u b) c)
  end.

(** The store after the endpoint has answered the request at clock [now]. *)
Definition step (r : Request) (now : Time) (s : Db) : Db := fst (handle r now s).

(** The stores the service can reach from the empty one. *)
Inductive reachable : Db → Prop :=
| reachable_init : reachable empty_db
| reachable_step r now s : reachable s → reachable (step r now s).

(** A run of requests, for examples. *)
Fixpoint run (rs : list (Request * Time)) (s : Db) : Db :=
  match rs with
  | [] => s
  | (r, now) :: rs' => run rs' (step r now s)
  end.

(** ** Properties the claims speak about *)

(** The total that a sequence of [$inc] builds: the amounts added one after the
    other, from 0, each addition rounded to a double. *)
Definition running_total (l : list float) : float := fold_left PrimFloat.add l 0%float.

Definition sum_amounts (l : list Investor) : float := running_total (inv_amount <$> l).

(** No wallet is below zero.  A balance that is NaN is not below zero, nor is
    it at least zero. *)
Definition wallets_not_below_zero (s : Db) : Prop :=
  ∀ id u, users s !! id = Some u → (walletBalance u <? 0)%float = false.

Definition funded_is_sum (s : Db) : Prop :=
  ∀ id p, projects s !! id = Some p → fundedAmount p = sum_amounts (investors p).

Definition momo_deposits_completed (s : Db) : Prop :=
  ∀ t, t ∈ transactions s → tx_type t = "momo_deposit" → tx_status t = "completed".

(** The error kinds of the service's interface. *)
Definition interface_error (e : Error) : Prop :=
  e ∈ [InvalidAmount; InsufficientFunds; NotFound; ProjectNotOpen; BelowMinimum;
       AlreadyCompleted].


(** A reference is carried by the transactions that the mobile-money routes
    write, and its first letters tell which: ["WFD"] on a ["momo_deposit"],
    ["WFW"] on a ["mobile_withdrawal"]. *)
Definition reference_typed (t : Transaction) : Prop :=
  ∀ ref, transaction_ref t = Some ref →
    (tx_type t = "momo_deposit" ∧ String.prefix "WFD" ref = true) ∨
    (tx_type t = "mobile_withdrawal" ∧ String.prefix "WFW" ref = true).

Definition references_typed (s : Db) : Prop :=
  ∀ t, t ∈ transactions s → reference_typed t.

(** ** The stores the handlers commit *)

(** The store [deposit] commits. *)
Definition deposited (uid : ObjectId) (a : float) (now : Time) (s : Db) : Db :=
  {| users := alter (inc_walletBalance a) uid (users s);
     projects := projects s;
     transactions := transactions s ++ [wallet_transaction uid a "deposit" now (next_oid s)];
     momo_transfers := momo_transfers s;
     next_oid := N.succ (next_oid s) |}.

(** The store [withdraw] commits. *)
Definition withdrawn (uid : ObjectId) (a : float) (now : Time) (s : Db) : Db :=
  {| users := alter (inc_walletBalance (- a)) uid (users s);
     projects := projects s;
     transactions := transactions s ++ [wallet_transaction uid a "withdraw" now (next_oid s)];
     momo_transfers := momo_transfers s;
     next_oid := N.succ (next_oid s) |}.

(** The status [invest_in_project] writes. *)
Definition new_status (p : Project) (a : float) : string :=
  if (fundingGoal p <=? fundedAmount p + a)%float then "closed" else "open".

(** The store [invest_in_project] commits; [p] is the project as loaded. *)
Definition invested (pid : ObjectId) (a : float) (uid : ObjectId) (now : Time) (p : Project)
  (s : Db) : Db :=
  {| users := alter (λ u, inc_totalInvested a (inc_walletBalance (- a) u)) uid (users s);
     projects :=
       alter (λ q, push_investors (mkInvestor uid a now)
                     (set_status (new_status p a) (inc_fundedAmount a q)))
             pid (projects s);
     transactions :=
       transactions s ++ [investment_transaction uid pid a (title p) now (next_oid s)];
     momo_transfers := momo_transfers s;
     next_oid := N.succ (next_oid s) |}.

(** The store [mobile_money_deposit] commits. *)
Definition momo_deposited (uid : ObjectId) (phone : string) (a : float) (now : Time) (s : Db)
  : Db :=
  {| users := alter (inc_walletBalance a) uid (users s);
     projects := projects s;
     transactions :=
       transactions s ++
       [momo_deposit_transaction uid a phone ("WFD" ++ strftime now)%string now (next_oid s)];
     momo_transfers :=
       momo_transfers s ++
       [{| from_phone := phone; mt_amount := a;
           mt_transaction_ref := ("WFD" ++ strftime now)%string; mt_user_id := uid;
           mt_status := "completed"; processed_at := now |}];
     next_oid := N.succ (next_oid s) |}.

(** The store [mobile_money_withdraw] commits. *)
Definition momo_withdrawn (uid : ObjectId) (phone : string) (a : float) (now : Time) (s : Db)
  : Db :=
  {| users := alter (inc_walletBalance (- a)) uid (users s);
     projects := projects s;
     transactions :=
       transactions s ++
       [mobile_withdrawal_transaction uid a phone ("WFW" ++ strftime now)%string now
                                      (next_oid s)];
     momo_transfers := momo_transfers s;
     next_oid := N.succ (next_oid s) |}.

(** The store [manual_confirm_deposit] commits; [t] is the transaction found. *)
Definition confirmed (ref : string) (admin : ObjectId) (now : Time) (t : Transaction)
  (s : Db) : Db :=
  {| users := alter (inc_walletBalance (amount t)) (userId t) (users s);
     projects := projects s;
     transactions := update_first (has_ref ref) (set_confirmed admin now) (transactions s);
     momo_transfers := momo_transfers s;
     next_oid := next_oid s |}.

(** ** Example stores *)

Definition admin_token : CurrentUser := mkCurrentUser 0%N "admin".
Definition alice_token : CurrentUser := mkCurrentUser 1%N "member".

(** Two accounts, one project of goal 1000 and minimum 50 still pending, and
    500 on alice's wallet. *)
Definition setup : list (Request * Time) :=
  [(Register (mkUserRegister "admin" "admin@wefund" 30), 1%N);
   (Register (mkUserRegister "alice" "alice@wefund" 20), 2%N);
   (CreateProject admin_token (mkProjectCreate "Solar farm" 1000 50), 3%N);
   (Deposit alice_token 500, 4%N)].

Definition pending_store : Db := run setup empty_db.
Definition open_store : Db := run [(VerifyProject admin_token 2%N, 5%N)] pending_store.
Definition blocked_store : Db := run [(BlockProject admin_token 2%N true, 6%N)] open_store.

(** Alice's document in these stores. *)
Definition alice_500 : User :=
  {| name := "alice"; email := "alice@wefund"; age := 20; role := "member";
     walletBalance := 500; totalInvested := 0; totalReturns := 0;
     user_verified := false; user_blocked := false; createdAt := 2%N |}.

(** The project of [open_store] funded up to 900 of its goal. *)
Definition nearly_funded_store : Db :=
  run [(Deposit alice_token 1000, 6%N); (Invest alice_token 2%N 900, 7%N)] open_store.

(** A project whose minimum investment the administrator entered as -10,
    verified and open; alice's wallet is empty. *)
Definition lenient_store : Db :=
  run [(Register (mkUserRegister "admin" "admin@wefund" 30), 1%N);
       (Register (mkUserRegister "alice" "alice@wefund" 20), 2%N);
       (CreateProject admin_token (mkProjectCreate "Solar farm" 1000 (-10)), 3%N);
       (VerifyProject admin_token 2%N, 4%N)] empty_db.

(** Large amounts: a project of goal 1e17 and minimum 1, open; alice has
    deposited 2e16 and invested 1e16, so that her wallet and the project both
    stand at 1e16, where neighbouring doubles are 2 apart. *)
Definition large_store : Db :=
  run [(Register (mkUserRegister "admin" "admin@wefund" 30), 1%N);
       (Register (mkUserRegister "alice" "alice@wefund" 20), 2%N);
       (CreateProject admin_token (mkProjectCreate "Dam" 1e17 1), 3%N);
       (VerifyProject admin_token 2%N, 4%N);
       (Deposit alice_token 2e16, 5%N);
       (Invest alice_token 2%N 1e16, 6%N)] empty_db.



(** ** Reading routes ([routers/users.py]) *)

Record WalletView := mkWalletView {
  wv_walletBalance : float;
  wv_totalInvested : float;
  wv_totalReturns : float
}.

(** [get_wallet]; [user.get] on [None] raises like a subscript. *)
Definition get_wallet (current_user : CurrentUser) : Handler WalletView :=
  let* user := users_find_one (cu_userId current_user) in
  let* user := item user in
  ret {| wv_walletBalance := walletBalance user; wv_totalInvested := totalInvested user;
         wv_totalReturns := totalReturns user |}.

(** ** What the ledger says about an account and a project *)

(** The token a request presents ([Register] presents none). *)
Definition payload_of (r : Request) : option CurrentUser :=
  match r with
  | Register _ => None
  | Deposit c _ | Withdraw c _ | Invest c _ _ | MomoDeposit c _ _ | MomoWithdraw c _ _
  | ConfirmPendingDeposit c _ | CreateProject c _ | VerifyProject c _ | BlockProject c _ _
  | ReviewProject c _ _ | DeleteProject c _ | VerifyUser c _ | BlockUser c _ _ => Some c
  end.

(** The requests whose handler starts with [require_admin]. *)
Definition admin_request (r : Request) : bool :=
  match r with
  | ConfirmPendingDeposit _ _ | CreateProject _ _ | VerifyProject _ _ | BlockProject _ _ _
  | ReviewProject _ _ _ | DeleteProject _ _ | VerifyUser _ _ | BlockUser _ _ _ => true
  | _ => false
  end.

(** The increment the writer of a transaction applied to the wallet of its
    user, by the type of the transaction. *)
Definition wallet_delta (t : Transaction) : float :=
  if bool_decide (tx_type t = "deposit") || bool_decide (tx_type t = "momo_deposit")
  then amount t
  else if bool_decide (tx_type t = "withdraw")
          || bool_decide (tx_type t = "mobile_withdrawal")
          || bool_decide (tx_type t = "investment")
       then (- amount t)%float
       else 0%float.

(** The balance that replaying the transactions of [uid] gives: their
    increments applied one after the other to 0, in the order of the ledger. *)
Definition ledger_balance (uid : ObjectId) (l : list Transaction) : float :=
  running_total (wallet_delta <$> List.filter (λ t, bool_decide (userId t = uid)) l).

(** The investment transactions of user [uid]. *)
Definition investments_of_user (uid : ObjectId) (l : list Transaction) : list Transaction :=
  List.filter (λ t, bool_decide (userId t = uid) && bool_decide (tx_type t = "investment")) l.

(** The investment transactions that refer to project [pid]. *)
Definition investments_in_project (pid : ObjectId) (l : list Transaction)
  : list Transaction :=
  List.filter (λ t, bool_decide (projectId t = Some pid)
                    && bool_decide (tx_type t = "investment")) l.

Definition sum_tx_amounts (l : list Transaction) : float := running_total (amount <$> l).

(** The type and status pairs the handlers write. *)
Definition written_kinds : list (string * string) :=
  [("deposit", "completed"); ("withdraw", "completed"); ("investment", "completed");
   ("momo_deposit", "completed"); ("mobile_withdrawal", "pending")].

(** Every id in the store was handed out by [insert_one] before. *)
Record ids_below (s : Db) : Prop := mk_ids_below {
  user_ids_below : ∀ id u, users s !! id = Some u → (id < next_oid s)%N;
  project_ids_below : ∀ id p, projects s !! id = Some p → (id < next_oid s)%N;
  tx_ids_below : ∀ t, t ∈ transactions s → (tx_id t < next_oid s)%N;
  tx_users_below : ∀ t, t ∈ transactions s → (userId t < next_oid s)%N;
  tx_projects_below :
    ∀ t q, t ∈ transactions s → projectId t = Some q → (q < next_oid s)%N
}.

Definition emails_unique (s : Db) : Prop :=
  ∀ i j u v, users s !! i = Some u → users s !! j = Some v → email u = email v → i = j.

(** Every wallet is what replaying the transactions of its user gives, and
    every [totalInvested] the running total of the user's investments. *)
Definition ledger_agrees (s : Db) : Prop :=
  ∀ uid u, users s !! uid = Some u →
    walletBalance u = ledger_balance uid (transactions s) ∧
    totalInvested u = sum_tx_amounts (investments_of_user uid (transactions s)).

(** The investor entries of every project are, in order, the users and amounts
    of the investment transactions that refer to it. *)
Definition investors_agree (s : Db) : Prop :=
  ∀ pid p, projects s !! pid = Some p →
    (λ i, (inv_userId i, inv_amount i)) <$> investors p
    = (λ t, (userId t, amount t)) <$> investments_in_project pid (transactions s).

(** ** What one request does to a store where every mobile-money deposit is
    completed *)

Inductive Effect (s s' : Db) : Prop :=
| Eff_none :
    s' = s → Effect s s'
| Eff_register u :
    users s' = <[next_oid s := u]> (users s) →
    walletBalance u = 0%float → totalInvested u = 0%float → role u = "member" →
    totalReturns u = 0%float →
    (∀ id v, users s !! id = Some v → email v ≠ email u) →
    projects s' = projects s → transactions s' = transactions s →
    next_oid s' = N.succ (next_oid s) →
    Effect s s'
| Eff_wallet u t :
    transactions s' = transactions s ++ [t] →
    users s !! userId t = Some u →
    users s' = alter (inc_walletBalance (wallet_delta t)) (userId t) (users s) →
    tx_id t = next_oid s → projectId t = None → (amount t <=? 0)%float = false →
    (tx_type t, tx_status t) ∈ written_kinds → tx_type t ≠ "investment" →
    projects s' = projects s → next_oid s' = N.succ (next_oid s) →
    Effect s s'
| Eff_invest u p t now :
    transactions s' = transactions s ++ [t] →
    users s !! userId t = Some u →
    users s' = alter (λ v, inc_totalInvested (amount t) (inc_walletBalance (- amount t) v))
                     (userId t) (users s) →
    tx_id t = next_oid s → tx_type t = "investment" → tx_status t = "completed" →
    ∀ pid, projectId t = Some pid →
    projects s !! pid = Some p → status p = "open" →
    (amount t <? minInvestment p)%float = false →
    (walletBalance u <? amount t)%float = false →
    projects s' = alter (λ q, push_investors (mkInvestor (userId t) (amount t) now)
                                (set_status (new_status p (amount t))
                                   (inc_fundedAmount (amount t) q)))
                        pid (projects s) →
    next_oid s' = N.succ (next_oid s) →
    Effect s s'
| Eff_project_new p :
    projects s' = <[next_oid s := p]> (projects s) →
    fundedAmount p = 0%float → investors p = [] → status p = "pending" →
    users s' = users s → transactions s' = transactions s →
    next_oid s' = N.succ (next_oid s) →
    Effect s s'
| Eff_project_flags pid f :
    projects s' = alter f pid (projects s) →
    (∀ p, title (f p) = title p ∧ fundingGoal (f p) = fundingGoal p ∧
          fundedAmount (f p) = fundedAmount p ∧ minInvestment (f p) = minInvestment p ∧
          investors (f p) = investors p) →
    users s' = users s → transactions s' = transactions s → next_oid s' = next_oid s →
    Effect s s'
| Eff_project_delete pid :
    projects s' = delete pid (projects s) →
    users s' = users s → transactions s' = transactions s → next_oid s' = next_oid s →
    Effect s s'
| Eff_user_flags uid f :
    users s' = alter f uid (users s) →
    (∀ u, email (f u) = email u ∧ role (f u) = role u ∧
          walletBalance (f u) = walletBalance u ∧ totalInvested (f u) = totalInvested u ∧
          totalReturns (f u) = totalReturns u) →
    projects s' = projects s → transactions s' = transactions s → next_oid s' = next_oid s →
    Effect s s'.

(** ** Double-precision arithmetic

    What the wallet invariant needs of IEEE 754 addition and comparison, from
    the specification of the primitive floats ([FloatAxioms]). *)

(** A double that is not below zero: a zero, a positive number, plus infinity
    or NaN. *)
Definition SF_not_neg (f : spec_float) : Prop :=
  match f with
  | S754_infinity true | S754_finite true _ _ => False
  | _ => True
  end.

Lemma SFltb_zero f : SFltb f (S754_zero false) = false ↔ SF_not_neg f.
Proof. destruct f as [[]|[]| |[] m e]; cbn; intuition congruence. Qed.

Lemma ltb_zero_spec (x : float) : (x <? 0)%float = false ↔ SF_not_neg (Prim2SF x).
Proof. rewrite ltb_spec. apply SFltb_zero. Qed.

(** Rounding keeps the sign it is given. *)
Lemma binary_round_aux_sign s m e l :
  match binary_round_aux prec emax s m e l with
  | S754_zero s' | S754_infinity s' | S754_finite s' _ _ => s' = s
  | S754_nan => True
  end.
Proof.
  unfold binary_round_aux.
  destruct (shr_fexp _ _ m e l) as [mrs' e'].
  destruct (shr_fexp _ _ _ e' loc_Exact) as [mrs'' e''].
  destruct (shr_m mrs''); [done| |done]. by destruct (Z.leb _ _).
Qed.

Lemma binary_round_sign s m e :
  match binary_round prec emax s m e with
  | S754_zero s' | S754_infinity s' | S754_finite s' _ _ => s' = s
  | S754_nan => True
  end.
Proof.
  unfold binary_round. destruct (shl_align _ _ _) as [mz ez]. apply binary_round_aux_sign.
Qed.

Lemma binary_normalize_not_neg m e :
  0 <= m → SF_not_neg (binary_normalize prec emax m e false).
Proof.
  intros Hm. destruct m as [|m|m]; cbn; [done| |lia].
  pose proof (binary_round_sign false m e) as H.
  destruct (binary_round _ _ _ _ _) as [|[]| |[] ? ?]; cbn; done.
Qed.

Lemma digits2_pos_bounds (m : positive) :
  2 ^ (Z.pos (digits2_pos m) - 1) <= Z.pos m < 2 ^ Z.pos (digits2_pos m).
Proof.
  induction m as [m IH|m IH|]; cbn [digits2_pos]; [| |cbn; lia].
  all: rewrite Pos2Z.inj_succ;
    replace (Z.succ (Z.pos (digits2_pos m)) - 1) with (Z.succ (Z.pos (digits2_pos m) - 1))
      by lia;
    rewrite !Z.pow_succ_r by lia; lia.
Qed.

Lemma iter_xO_pow (m d : positive) : Z.pos (Pos.iter xO m d) = Z.pos m * 2 ^ Z.pos d.
Proof.
  induction d as [|d IH] using Pos.peano_ind.
  - cbn. lia.
  - rewrite Pos.iter_succ, Pos2Z.inj_succ, Z.pow_succ_r by lia.
    rewrite Pos2Z.inj_xO, IH. lia.
Qed.

(** The integer that [shl_align] hands to the addition: the mantissa scaled to
    the smaller exponent. *)
Lemma shl_align_value m e ez :
  ez <= e → Z.pos (fst (shl_align m e ez)) = Z.pos m * 2 ^ (e - ez).
Proof.
  intros He. unfold shl_align. destruct (ez - e) as [|d|d] eqn:Hd; cbn [fst].
  - replace (e - ez) with 0 by lia. lia.
  - lia.
  - rewrite iter_xO_pow. f_equal. f_equal. lia.
Qed.

(** Of two finite doubles in canonical form, the one with the larger exponent
    has the larger magnitude. *)
Lemma bounded_exponent_order m1 e1 m2 e2 :
  bounded prec emax m1 e1 = true → bounded prec emax m2 e2 = true → e1 < e2 →
  Z.pos m1 * 2 ^ (e1 - Z.min e1 e2) <= Z.pos m2 * 2 ^ (e2 - Z.min e1 e2).
Proof.
  unfold bounded, canonical_mantissa, fexp.
  intros [H1 _]%andb_true_iff [H2 _]%andb_true_iff He.
  apply Z.eqb_eq in H1, H2.
  pose proof (digits2_pos_bounds m1) as [_ B1]. pose proof (digits2_pos_bounds m2) as [B2 _].
  rewrite Z.min_l by lia. replace (e1 - e1) with 0 by lia. rewrite Z.pow_0_r, Z.mul_1_r.
  assert (Z.pos (digits2_pos m1) <= prec) as D1 by lia.
  assert (Z.pos (digits2_pos m2) = prec) as D2 by lia.
  rewrite D2 in B2.
  assert (2 ^ Z.pos (digits2_pos m1) <= 2 ^ prec) by (apply Z.pow_le_mono_r; lia).
  assert (2 ^ 1 <= 2 ^ (e2 - e1)) by (apply Z.pow_le_mono_r; lia).
  replace (2 ^ prec) with (2 ^ (prec - 1) * 2 ^ 1) in *
    by (rewrite <- Z.pow_add_r; [f_equal; lia|unfold prec; lia|lia]).
  nia.
Qed.

Lemma SFadd_opp_not_neg (x y : spec_float) :
  valid_binary x = true → valid_binary y = true →
  SFltb x y = false → SF_not_neg (SF64add x (SFopp y)).
Proof.
  intros Vx Vy.
  destruct x as [sx|sx| |sx mx ex], y as [sy|sy| |sy my ey];
    try (by repeat match goal with b : bool |- _ => destruct b end).
  unfold SFltb, SFcompare, SF64add, SFadd, SFopp. cbn in Vx, Vy.
  intros Hlt. apply binary_normalize_not_neg.
  rewrite !shl_align_value by lia.
  pose proof (Pos2Z.is_pos mx). pose proof (Pos2Z.is_pos my).
  assert (0 < 2 ^ (ex - Z.min ex ey)) by (apply Z.pow_pos_nonneg; lia).
  assert (0 < 2 ^ (ey - Z.min ex ey)) by (apply Z.pow_pos_nonneg; lia).
  destruct sx, sy; cbn [cond_Zopp negb]; try done; try nia.
  - destruct (Z.compare_spec ex ey) as [->|He|He]; try done.
    + change (PosDef.Pos.compare_cont Eq mx my) with (Pos.compare mx my) in Hlt.
      destruct (Pos.compare_spec mx my); try done; subst; nia.
    + pose proof (bounded_exponent_order mx ex my ey Vx Vy He). lia.
  - destruct (Z.compare_spec ex ey) as [->|He|He]; try done.
    + change (PosDef.Pos.compare_cont Eq mx my) with (Pos.compare mx my) in Hlt.
      destruct (Pos.compare_spec mx my); try done; subst; nia.
    + pose proof (bounded_exponent_order my ey mx ex Vy Vx He) as Hb.
      rewrite Z.min_comm in Hb. lia.
Qed.

(** A balance that is not less than the amount does not go below zero when
    the amount is taken from it. *)
Lemma debit_not_below_zero (b a : float) :
  (b <? a)%float = false → (b + - a <? 0)%float = false.
Proof.
  rewrite ltb_spec. intros H. apply ltb_zero_spec. rewrite add_spec, opp_spec.
  apply SFadd_opp_not_neg; auto using Prim2SF_valid.
Qed.

Lemma SFadd_not_neg (x y : spec_float) :
  SF_not_neg x → SFleb y (S754_zero false) = false → SF_not_neg (SF64add x y).
Proof.
  destruct x as [sx|sx| |sx mx ex], y as [sy|sy| |sy my ey];
    try (by repeat match goal with b : bool |- _ => destruct b end).
  destruct sx, sy; cbn; try done. intros _ _.
  apply binary_normalize_not_neg. lia.
Qed.

(** A balance that is not below zero stays so when an amount that passed the
    test [amount <= 0] is added. *)
Lemma credit_not_below_zero (b a : float) :
  (b <? 0)%float = false → (a <=? 0)%float = false → (b + a <? 0)%float = false.
Proof.
  rewrite leb_spec. intros Hb%ltb_zero_spec Ha. apply ltb_zero_spec. rewrite add_spec.
  by apply SFadd_not_neg.
Qed.

(** Python's [x - y] and the [$inc] by [-y] give the same double. *)
Lemma sub_add_opp (x y : float) : (x - y = x + - y)%float.
Proof.
  apply Prim2SF_inj. rewrite sub_spec, add_spec, opp_spec.
  destruct (Prim2SF x) as [sx|sx| |sx mx ex], (Prim2SF y) as [sy|sy| |sy my ey];
    by repeat match goal with b : bool |- _ => destruct b end.
Qed.

(** ** Equations of the handlers

    Each handler is rewritten once into the decision tree it runs and the store
    it commits; the theorems below work from these equations. *)

Ltac unfold_prims :=
  unfold void, authenticated, get_current_user, require_admin,
    bind, ret, raise, item, users_find_one, users_update_one, users_insert_one,
    users_find_one_by_email, projects_find_one, projects_update_one, projects_insert_one,
    projects_delete_one, transactions_find_one, transactions_update_one,
    transactions_insert_one, momo_transfers_insert_one, fresh_oid, bson_int, set_users,
    set_projects, set_transactions in *.

Lemma find_app_last {A} (p : A → bool) (l : list A) (x : A) :
  p x = true → ∃ y, List.find p (l ++ [x]) = Some y ∧ p y = true.
Proof.
  intros Hx. induction l as [|z l IH]; cbn.
  - rewrite Hx. eauto.
  - destruct (p z) eqn:Hz; eauto.
Qed.


Lemma deposit_eq a cu now s :
  deposit a cu now s =
  if (a <=? 0)%float then (s, inl InvalidAmount) else
  match users s !! cu_userId cu with
  | None => (deposited (cu_userId cu) a now s, inl InternalError)
  | Some u =>
      (deposited (cu_userId cu) a now s,
       inr {| wr_walletBalance := walletBalance u + a;
              wr_transaction :=
                default (wallet_transaction (cu_userId cu) a "deposit" now (next_oid s))
                        (List.find (has_id (next_oid s)) (transactions (deposited (cu_userId cu) a now s))) |})
  end.
Proof.
  unfold deposit, deposited. unfold_prims. cbn.
  destruct (a <=? 0)%float; [done|]. cbn.
  rewrite lookup_alter_eq.
  destruct (find_app_last (has_id (next_oid s)) (transactions s)
              (wallet_transaction (cu_userId cu) a "deposit" now (next_oid s)))
    as (t & Ht & _).
  { unfold has_id. cbn. by apply bool_decide_eq_true. }
  rewrite Ht.
  destruct (users s !! cu_userId cu) as [u|]; cbn; done.
Qed.

Lemma withdraw_eq a cu now s :
  withdraw a cu now s =
  if (a <=? 0)%float then (s, inl InvalidAmount) else
  match users s !! cu_userId cu with
  | None => (s, inl InternalError)
  | Some u =>
      if (walletBalance u <? a)%float then (s, inl InsufficientFunds) else
      (withdrawn (cu_userId cu) a now s,
       inr {| wr_walletBalance := walletBalance u + - a;
              wr_transaction :=
                default (wallet_transaction (cu_userId cu) a "withdraw" now (next_oid s))
                        (List.find (has_id (next_oid s)) (transactions (withdrawn (cu_userId cu) a now s))) |})
  end.
Proof.
  unfold withdraw, withdrawn. unfold_prims. cbn.
  destruct (a <=? 0)%float; [done|].
  destruct (users s !! cu_userId cu) as [u|] eqn:Hu; [|done]. cbn.
  destruct (walletBalance u <? a)%float; [done|]. cbn.
  rewrite lookup_alter_eq, Hu.
  destruct (find_app_last (has_id (next_oid s)) (transactions s)
              (wallet_transaction (cu_userId cu) a "withdraw" now (next_oid s)))
    as (t & Ht & _).
  { unfold has_id. cbn. by apply bool_decide_eq_true. }
  rewrite Ht. cbn. done.
Qed.

Lemma invest_in_project_eq pid a cu now s :
  invest_in_project pid a cu now s =
  match projects s !! pid with
  | None => (s, inl NotFound)
  | Some p =>
      if decide (status p ≠ "open") then (s, inl ProjectNotOpen) else
      if (a <? minInvestment p)%float then (s, inl BelowMinimum) else
      match users s !! cu_userId cu with
      | None => (s, inl InternalError)
      | Some u =>
          if (walletBalance u <? a)%float then (s, inl InsufficientFunds) else
          (invested pid a (cu_userId cu) now p s,
           inr {| ir_walletBalance := walletBalance u + - a;
                  ir_totalInvested := totalInvested u + a |})
      end
  end.
Proof.
  unfold invest_in_project, invested, new_status. unfold_prims. cbn.
  destruct (projects s !! pid) as [p|]; [|done].
  destruct (decide (status p ≠ "open")); [done|].
  destruct (a <? minInvestment p)%float; [done|].
  destruct (users s !! cu_userId cu) as [u|] eqn:Hu; [|done]. cbn.
  destruct (walletBalance u <? a)%float; [done|]. cbn.
  rewrite lookup_alter_eq, Hu. cbn. done.
Qed.

Lemma mobile_money_deposit_eq phone a cu now s :
  mobile_money_deposit phone a cu now s =
  match users s !! cu_userId cu with
  | None => (s, inl NotFound)
  | Some _ =>
      if (a <=? 0)%float then (s, inl InvalidAmount) else
      if (a <? 100)%float then (s, inl MinimumDeposit) else
      (momo_deposited (cu_userId cu) phone a now s,
       inr {| md_transaction_ref := ("WFD" ++ strftime now)%string; md_amount := a |})
  end.
Proof.
  unfold mobile_money_deposit, process_deposit_to_personal_momo, momo_deposited.
  unfold_prims. cbn.
  destruct (users s !! cu_userId cu) as [u|]; [|done].
  destruct (a <=? 0)%float; [done|].
  destruct (a <? 100)%float; done.
Qed.

Lemma mobile_money_withdraw_eq phone a cu now s :
  mobile_money_withdraw phone a cu now s =
  match users s !! cu_userId cu with
  | None => (s, inl NotFound)
  | Some u =>
      if (walletBalance u <? a)%float then (s, inl InsufficientFunds) else
      if (a <=? 0)%float then (s, inl InvalidAmount) else
      if (a <? 500)%float then (s, inl MinimumWithdrawal) else
      (momo_withdrawn (cu_userId cu) phone a now s,
       inr {| mw_transaction_ref := ("WFW" ++ strftime now)%string; mw_amount := a;
              mw_new_balance := walletBalance u - a |})
  end.
Proof.
  unfold mobile_money_withdraw, momo_withdrawn. unfold_prims. cbn.
  destruct (users s !! cu_userId cu) as [u|]; [|done].
  destruct (walletBalance u <? a)%float; [done|].
  destruct (a <=? 0)%float; [done|].
  destruct (a <? 500)%float; done.
Qed.

Lemma manual_confirm_deposit_eq ref cu now s :
  manual_confirm_deposit ref cu now s =
  if decide (cu_role cu ≠ "admin") then (s, inl Forbidden) else
  match List.find (is_momo_deposit_with_ref ref) (transactions s) with
  | None => (s, inl NotFound)
  | Some t =>
      if decide (tx_status t = "completed") then (s, inl AlreadyCompleted) else
      (confirmed ref (cu_userId cu) now t s,
       inr {| cr_transaction_ref := ref; cr_amount := amount t; cr_user_id := userId t |})
  end.
Proof.
  unfold manual_confirm_deposit, confirmed. unfold_prims. cbn.
  destruct (decide (cu_role cu ≠ "admin")); [done|]. cbn.
  destruct (List.find _ _) as [t|]; [|done].
  destruct (decide (tx_status t = "completed")); done.
Qed.

(** A route behind [get_current_user] runs its handler only for a user who
    exists and is not blocked. *)
Lemma authenticated_eq {A} (h : CurrentUser → Handler A) c s :
  authenticated h c s =
  match users s !! cu_userId c with
  | None => (s, inl Unauthorized)
  | Some u => if user_blocked u then (s, inl Forbidden) else h c s
  end.
Proof.
  unfold authenticated. unfold_prims. cbn.
  destruct (users s !! cu_userId c) as [u|]; [|done].
  destruct (user_blocked u); cbn; [done|].
  by destruct (h c s) as [? [|]].
Qed.

Lemma void_eq {A} (h : Handler A) s :
  void h s = (fst (h s), match snd (h s) with inl e => inl e | inr _ => inr tt end).
Proof. unfold void. unfold_prims. by destruct (h s) as [? [|]]. Qed.

(** ** Equations of the administration handlers *)

Lemma register_eq d now s :
  register d now s =
  if decide (ur_age d < 15) then (s, inl TooYoung) else
  match List.find (λ kv, String.eqb (email (snd kv)) (ur_email d)) (map_to_list (users s)) with
  | Some _ => (s, inl EmailTaken)
  | None =>
      if decide (- 2 ^ 63 <= ur_age d < 2 ^ 63) then
        ({| users :=
              <[next_oid s :=
                  {| name := ur_name d; email := ur_email d; age := ur_age d;
                     role := "member"; walletBalance := 0; totalInvested := 0;
                     totalReturns := 0; user_verified := false; user_blocked := false;
                     createdAt := now |}]>
                (users s);
            projects := projects s; transactions := transactions s;
            momo_transfers := momo_transfers s; next_oid := N.succ (next_oid s) |},
         inr (next_oid s))
      else (s, inl InternalError)
  end.
Proof.
  unfold register. unfold_prims. cbn -[Z.pow].
  destruct (decide (ur_age d < 15)); [done|].
  destruct (List.find _ _); [done|]. cbn -[Z.pow].
  by destruct (decide (- 2 ^ 63 <= ur_age d < 2 ^ 63)).
Qed.

Lemma create_project_eq d cu s :
  create_project d cu s =
  if decide (cu_role cu ≠ "admin") then (s, inl Forbidden) else
  ({| users := users s;
      projects :=
        <[next_oid s :=
            {| title := pc_title d; fundingGoal := pc_fundingGoal d; fundedAmount := 0;
               minInvestment := pc_minInvestment d; status := "pending";
               project_verified := false; project_blocked := false; investors := [] |}]>
          (projects s);
      transactions := transactions s; momo_transfers := momo_transfers s;
      next_oid := N.succ (next_oid s) |},
   inr (next_oid s)).
Proof.
  unfold create_project. unfold_prims. cbn.
  by destruct (decide (cu_role cu ≠ "admin")).
Qed.

Lemma verify_project_eq pid cu s :
  verify_project pid cu s =
  if decide (cu_role cu ≠ "admin") then (s, inl Forbidden) else
  (set_projects (alter (λ p, set_status "open" (set_project_verified true p)) pid) s,
   inr (alter (λ p, set_status "open" (set_project_verified true p)) pid (projects s)
        !! pid)).
Proof.
  unfold verify_project. unfold_prims. cbn.
  by destruct (decide (cu_role cu ≠ "admin")).
Qed.

Lemma block_project_eq pid b cu s :
  block_project pid b cu s =
  if decide (cu_role cu ≠ "admin") then (s, inl Forbidden) else
  (set_projects (alter (set_project_blocked b) pid) s,
   inr (alter (set_project_blocked b) pid (projects s) !! pid)).
Proof.
  unfold block_project. unfold_prims. cbn.
  by destruct (decide (cu_role cu ≠ "admin")).
Qed.

Lemma delete_project_eq pid cu s :
  delete_project pid cu s =
  if decide (cu_role cu ≠ "admin") then (s, inl Forbidden) else
  (set_projects (delete pid) s, inr tt).
Proof.
  unfold delete_project. unfold_prims. cbn.
  by destruct (decide (cu_role cu ≠ "admin")).
Qed.

Lemma review_project_eq pid st cu s :
  review_project pid st cu s =
  if decide (cu_role cu ≠ "admin") then (s, inl Forbidden) else
  match projects s !! pid with
  | None => (s, inl NotFound)
  | Some _ =>
      (set_projects
         (alter (λ p, set_project_verified (bool_decide (status_value st = "approved"))
                        (set_status (status_value st) p)) pid) s,
       inr tt)
  end.
Proof.
  unfold review_project. unfold_prims. cbn.
  destruct (decide (cu_role cu ≠ "admin")); [done|]. cbn.
  by destruct (projects s !! pid).
Qed.

Lemma verify_user_eq uid cu s :
  verify_user uid cu s =
  if decide (cu_role cu ≠ "admin") then (s, inl Forbidden) else
  (set_users (alter (set_user_verified true) uid) s,
   match users s !! uid with
   | None => inl InternalError
   | Some u => inr (set_user_verified true u)
   end).
Proof.
  unfold verify_user, format_user. unfold_prims. cbn.
  destruct (decide (cu_role cu ≠ "admin")); [done|]. cbn.
  rewrite lookup_alter_eq. by destruct (users s !! uid).
Qed.

Lemma block_user_eq uid b cu s :
  block_user uid b cu s =
  if decide (cu_role cu ≠ "admin") then (s, inl Forbidden) else
  (set_users (alter (set_user_blocked b) uid) s,
   match users s !! uid with
   | None => inl InternalError
   | Some u => inr (set_user_blocked b u)
   end).
Proof.
  unfold block_user, format_user. unfold_prims. cbn.
  destruct (decide (cu_role cu ≠ "admin")); [done|]. cbn.
  rewrite lookup_alter_eq. by destruct (users s !! uid).
Qed.

(** Case analysis on a request: the goal is left with one store per branch of
    the endpoint that answers it. *)
Ltac step_cases r :=
  destruct r; unfold step, handle; rewrite void_eq; rewrite ?authenticated_eq; cbn [fst];
  repeat lazymatch goal with
    | |- context [fst (match ?x with _ => _ end)] => destruct x eqn:?
    end;
  rewrite ?deposit_eq, ?withdraw_eq, ?invest_in_project_eq, ?mobile_money_deposit_eq,
    ?mobile_money_withdraw_eq, ?manual_confirm_deposit_eq, ?register_eq, ?create_project_eq,
    ?verify_project_eq, ?block_project_eq, ?delete_project_eq, ?review_project_eq,
    ?verify_user_eq, ?block_user_eq;
  repeat case_match;
  cbn [fst snd users projects transactions next_oid momo_transfers set_users set_projects
       set_transactions deposited withdrawn invested momo_deposited momo_withdrawn
       confirmed].

Lemma reachable_run rs s : reachable s → reachable (run rs s).
Proof.
  revert s. induction rs as [|[r now] rs IH]; intros s Hs; cbn; [done|].
  apply IH. by constructor.
Qed.

(** ** Investment: the gate, the conservation law and the status rule *)

(** C1, as the code has it: [invest_in_project] refuses with [ProjectNotOpen]
    exactly the projects whose status is not ["open"], whatever their [blocked]
    flag, and then leaves the store as it was; an investment that succeeds was
    made in a project whose status is ["open"]; and flipping the [blocked] flag
    of the project never changes the answer. *)
Theorem invest_requires_open_status pid a cu now s :
  (∀ p, projects s !! pid = Some p → status p ≠ "open" →
        invest_in_project pid a cu now s = (s, inl ProjectNotOpen)) ∧
  (∀ s' r, invest_in_project pid a cu now s = (s', inr r) →
        ∃ p, projects s !! pid = Some p ∧ status p = "open") ∧
  (∀ b, snd (invest_in_project pid a cu now
               (set_projects (alter (set_project_blocked b) pid) s))
        = snd (invest_in_project pid a cu now s)).
Proof.
  rewrite !invest_in_project_eq. split; [|split].
  - intros p -> Hst. by rewrite decide_True.
  - intros s' r. destruct (projects s !! pid) as [p|]; [|done].
    destruct (decide (status p ≠ "open")) as [|Hst]; [done|].
    intros _. exists p. split; [done|]. by destruct (decide (status p = "open")).
  - intros b. rewrite invest_in_project_eq. cbn. rewrite lookup_alter_eq.
    destruct (projects s !! pid) as [p|]; [|done]. cbn.
    destruct (decide (status p ≠ "open")); [done|].
    destruct (a <? minInvestment p)%float; [done|].
    destruct (users s !! cu_userId cu) as [u|]; [|done].
    destruct (walletBalance u <? a)%float; done.
Qed.

Lemma invest_requires_open_status_pending :
  invest_in_project 2%N 100 alice_token 7%N pending_store
  = (pending_store, inl ProjectNotOpen).
Proof.
  eapply (proj1 (invest_requires_open_status 2%N 100 alice_token 7%N pending_store)).
  - vm_compute. reflexivity.
  - vm_compute. discriminate.
Defined.

(** C1 as stated fails: the project of [blocked_store] is blocked and open, and
    the investment of 100 is accepted. *)
Lemma invest_in_blocked_project_accepted :
  (∃ p, projects blocked_store !! 2%N = Some p ∧ project_blocked p = true
        ∧ status p = "open") ∧
  snd (invest_in_project 2%N 100 alice_token 7%N blocked_store)
  = inr {| ir_walletBalance := 400; ir_totalInvested := 100 |} ∧
  fst (invest_in_project 2%N 100 alice_token 7%N blocked_store) ≠ blocked_store.
Proof.
  split; [|split].
  - eexists. split; [vm_compute; reflexivity|]. split; reflexivity.
  - vm_compute. reflexivity.
  - intros H. apply (f_equal (λ s, length (transactions s))) in H.
    vm_compute in H. discriminate.
Qed.

(** What a successful investment leaves behind, field by field. *)
Lemma invest_success pid a cu now s s' r :
  invest_in_project pid a cu now s = (s', inr r) →
  ∃ u p,
    users s !! cu_userId cu = Some u ∧ projects s !! pid = Some p ∧
    status p = "open" ∧ (a <? minInvestment p)%float = false ∧
    (walletBalance u <? a)%float = false ∧
    s' = invested pid a (cu_userId cu) now p s ∧
    r = {| ir_walletBalance := walletBalance u + - a;
           ir_totalInvested := totalInvested u + a |}.
Proof.
  rewrite invest_in_project_eq.
  destruct (projects s !! pid) as [p|]; [|done].
  destruct (decide (status p ≠ "open")) as [|Hst]; [done|].
  destruct (a <? minInvestment p)%float eqn:Hmin; [done|].
  destruct (users s !! cu_userId cu) as [u|]; [|done].
  destruct (walletBalance u <? a)%float eqn:Hbal; [done|].
  intros [= <- <-]. exists u, p. repeat split; try done.
  by destruct (decide (status p = "open")).
Qed.

(** C2, as the code has it: a successful [Invest(u, p, amt)] replaces [u]'s
    wallet balance by the double [walletBalance - amt], [u]'s [totalInvested]
    by the double [totalInvested + amt] and [p]'s [fundedAmount] by the double
    [fundedAmount + amt], each rounded as doubles are; it appends the one entry
    [(u, amt, now)] to [p]'s investors, and appends one completed investment
    transaction of amount [amt] that carries [p]'s id and the title [p] had
    when it was loaded; every other user, project and transaction is as
    before. *)
Theorem invest_conservation pid a cu now s s' r :
  invest_in_project pid a cu now s = (s', inr r) →
  ∃ u p u' p' t,
    users s !! cu_userId cu = Some u ∧ projects s !! pid = Some p ∧
    users s' !! cu_userId cu = Some u' ∧ projects s' !! pid = Some p' ∧
    walletBalance u' = (walletBalance u - a)%float ∧
    totalInvested u' = (totalInvested u + a)%float ∧
    fundedAmount p' = (fundedAmount p + a)%float ∧
    investors p' = investors p ++ [mkInvestor (cu_userId cu) a now] ∧
    transactions s' = transactions s ++ [t] ∧
    userId t = cu_userId cu ∧ amount t = a ∧ tx_type t = "investment" ∧
    tx_status t = "completed" ∧ projectId t = Some pid ∧
    projectTitle t = Some (title p) ∧ date t = now ∧
    (∀ v, v ≠ cu_userId cu → users s' !! v = users s !! v) ∧
    (∀ q, q ≠ pid → projects s' !! q = projects s !! q) ∧
    ir_walletBalance r = walletBalance u' ∧ ir_totalInvested r = totalInvested u'.
Proof.
  intros H. apply invest_success in H as (u & p & Hu & Hp & _ & _ & _ & -> & ->).
  eexists u, p, _, _, _. cbn.
  rewrite !lookup_alter_eq, Hu, Hp. cbn. rewrite sub_add_opp.
  repeat split; try reflexivity.
  - intros v Hv. by rewrite lookup_alter_ne.
  - intros q Hq. by rewrite lookup_alter_ne.
Qed.

Lemma invest_conservation_open_store :
  ∃ u' p' t,
    users (fst (invest_in_project 2%N 100 alice_token 7%N open_store)) !! 1%N = Some u' ∧
    projects (fst (invest_in_project 2%N 100 alice_token 7%N open_store)) !! 2%N = Some p' ∧
    walletBalance u' = 400%float ∧ totalInvested u' = 100%float ∧
    fundedAmount p' = 100%float ∧
    transactions (fst (invest_in_project 2%N 100 alice_token 7%N open_store))
    = transactions open_store ++ [t] ∧ projectTitle t = Some "Solar farm".
Proof.
  destruct (invest_conservation 2%N 100 alice_token 7%N open_store
              (fst (invest_in_project 2%N 100 alice_token 7%N open_store))
              {| ir_walletBalance := 400; ir_totalInvested := 100 |})
    as (u & p & u' & p' & t & Hu & Hp & Hu' & Hp' & Hw & Hi & Hf & _ & Ht & _ & _ & _ & _
        & _ & Htitle & _).
  { vm_compute. reflexivity. }
  exists u', p', t.
  assert (u = alice_500) as ->.
  { vm_compute in Hu. injection Hu as <-. reflexivity. }
  assert (p = {| title := "Solar farm"; fundingGoal := 1000; fundedAmount := 0;
                 minInvestment := 50; status := "open"; project_verified := true;
                 project_blocked := false; investors := [] |}) as ->.
  { vm_compute in Hp. congruence. }
  cbn in Hw, Hi, Hf, Htitle. repeat split; assumption.
Defined.

(** C2 as stated fails.  In [large_store] alice's wallet and the project both
    stand at 1e16.  Her investment of 1 is accepted, recorded as an investor
    entry of 1 and a transaction of 1, and leaves her wallet, her total
    invested and the funded amount of the project exactly where they were:
    none of the three moves by 1. *)
Lemma invest_of_one_moves_no_balance :
  reachable large_store ∧
  ∃ u p s' r u' p' t,
    users large_store !! 1%N = Some u ∧ projects large_store !! 2%N = Some p ∧
    invest_in_project 2%N 1 alice_token 7%N large_store = (s', inr r) ∧
    users s' !! 1%N = Some u' ∧ projects s' !! 2%N = Some p' ∧
    walletBalance u = 1e16%float ∧ walletBalance u' = 1e16%float ∧
    totalInvested u' = totalInvested u ∧ fundedAmount p' = fundedAmount p ∧
    investors p' = investors p ++ [mkInvestor 1%N 1 7%N] ∧
    transactions s' = transactions large_store ++ [t] ∧ amount t = 1%float.
Proof.
  split.
  - unfold large_store. apply reachable_run, reachable_init.
  - eexists _, _, _, _, _, _, _.
    split; [vm_compute; reflexivity|]. split; [vm_compute; reflexivity|].
    split; [vm_compute; reflexivity|]. split; [vm_compute; reflexivity|].
    split; [vm_compute; reflexivity|]. repeat split.
Qed.

(** C6: after a successful [Invest(u, p, amt)] the project holds its former
    funded amount plus the whole of [amt], with nothing held back when that
    passes the goal, and its status is ["closed"] if the new funded amount has
    reached the funding goal and ["open"] otherwise. *)
Theorem invest_status_rule pid a cu now s s' r :
  invest_in_project pid a cu now s = (s', inr r) →
  ∃ p p',
    projects s !! pid = Some p ∧ projects s' !! pid = Some p' ∧
    fundedAmount p' = (fundedAmount p + a)%float ∧ fundingGoal p' = fundingGoal p ∧
    ((fundingGoal p' <=? fundedAmount p')%float = true → status p' = "closed") ∧
    ((fundingGoal p' <=? fundedAmount p')%float = false → status p' = "open").
Proof.
  intros H. apply invest_success in H as (u & p & Hu & Hp & _ & _ & _ & -> & ->).
  eexists p, _. cbn. rewrite lookup_alter_eq, Hp. cbn.
  repeat split; try reflexivity; cbn; unfold new_status; intros H; by rewrite H.
Qed.

(** The investment that crosses the goal: 900 of 1000 funded, 300 invested,
    1200 recorded and the project closed. *)
Lemma invest_status_rule_overfunding :
  ∃ p', projects (fst (invest_in_project 2%N 300 alice_token 8%N nearly_funded_store)) !! 2%N
        = Some p' ∧ fundedAmount p' = 1200%float ∧ fundingGoal p' = 1000%float ∧
        status p' = "closed".
Proof.
  destruct (invest_status_rule 2%N 300 alice_token 8%N nearly_funded_store
              (fst (invest_in_project 2%N 300 alice_token 8%N nearly_funded_store))
              {| ir_walletBalance := 300; ir_totalInvested := 1200 |})
    as (p & p' & Hp & Hp' & Hf & Hg & Hclosed & _).
  { vm_compute. reflexivity. }
  exists p'.
  assert (fundedAmount p = 900%float ∧ fundingGoal p = 1000%float) as [Hf0 Hg0].
  { vm_compute in Hp. injection Hp as <-. split; reflexivity. }
  rewrite Hf0 in Hf. rewrite Hg0 in Hg.
  repeat split; [assumption|exact Hf|assumption|apply Hclosed; by rewrite Hf, Hg].
Defined.

(** ** Withdrawals *)

(** C9, as the code has it: for a user [u] of the store, [Withdraw(u, a)]
    fails [InvalidAmount] when [a <= 0]; otherwise it fails
    [InsufficientFunds] exactly when the balance is less than [a], and the
    store is then as before; otherwise it replaces the balance by the double
    [walletBalance - a], appends one completed ["withdraw"] transaction of
    amount [a], touches nothing else, and returns the balance it has stored.
    An amount that is NaN fails neither test. *)
Theorem withdraw_contract a cu now s u :
  users s !! cu_userId cu = Some u →
  ((a <=? 0)%float = true → withdraw a cu now s = (s, inl InvalidAmount)) ∧
  ((a <=? 0)%float = false → (walletBalance u <? a)%float = true →
   withdraw a cu now s = (s, inl InsufficientFunds)) ∧
  ((a <=? 0)%float = false →
   ∀ s', withdraw a cu now s = (s', inl InsufficientFunds) →
         (walletBalance u <? a)%float = true) ∧
  ((a <=? 0)%float = false → (walletBalance u <? a)%float = false →
   ∃ s' resp u' t,
     withdraw a cu now s = (s', inr resp) ∧
     users s' !! cu_userId cu = Some u' ∧
     walletBalance u' = (walletBalance u - a)%float ∧
     totalInvested u' = totalInvested u ∧
     (∀ v, v ≠ cu_userId cu → users s' !! v = users s !! v) ∧
     projects s' = projects s ∧
     transactions s' = transactions s ++ [t] ∧
     userId t = cu_userId cu ∧ amount t = a ∧ tx_type t = "withdraw" ∧
     tx_status t = "completed" ∧
     wr_walletBalance resp = walletBalance u').
Proof.
  intros Hu. rewrite !withdraw_eq, Hu. repeat split.
  - by intros ->.
  - by intros -> ->.
  - intros -> s'. by destruct (walletBalance u <? a)%float.
  - intros -> ->.
    eexists _, _, _, _. split; [reflexivity|]. cbn.
    rewrite lookup_alter_eq, Hu. cbn. rewrite sub_add_opp.
    repeat split; try reflexivity.
    intros v Hv. by rewrite lookup_alter_ne.
Qed.

(** Balance 500, withdrawal of 600: refused, nothing changes. *)
Lemma withdraw_contract_exceeding :
  withdraw 600 alice_token 9%N open_store = (open_store, inl InsufficientFunds).
Proof.
  refine (proj1 (proj2 (withdraw_contract 600 alice_token 9%N open_store alice_500 _)) _ _).
  - vm_compute. reflexivity.
  - reflexivity.
  - reflexivity.
Defined.

(** C9 as stated fails.  In [large_store] alice holds 1e16; her withdrawal of
    1 succeeds, is recorded as a transaction of 1, and the balance stored and
    returned is still 1e16. *)
Lemma withdraw_of_one_leaves_balance :
  reachable large_store ∧
  ∃ u s' resp u' t,
    users large_store !! 1%N = Some u ∧
    withdraw 1 alice_token 7%N large_store = (s', inr resp) ∧
    users s' !! 1%N = Some u' ∧
    walletBalance u = 1e16%float ∧ walletBalance u' = 1e16%float ∧
    wr_walletBalance resp = 1e16%float ∧
    transactions s' = transactions large_store ++ [t] ∧
    tx_type t = "withdraw" ∧ amount t = 1%float.
Proof.
  split.
  - unfold large_store. apply reachable_run, reachable_init.
  - eexists _, _, _, _, _.
    split; [vm_compute; reflexivity|]. split; [vm_compute; reflexivity|].
    split; [vm_compute; reflexivity|]. repeat split.
Qed.

(** ** Refused calls change nothing *)

Lemma interface_error_not_internal e : interface_error e → e ≠ InternalError.
Proof.
  intros He ->. unfold interface_error in He.
  repeat (apply elem_of_cons in He as [He|He]; [discriminate|]).
  by apply elem_of_nil in He.
Qed.

(** C8: when [deposit], [withdraw], [invest_in_project] or
    [manual_confirm_deposit] answers with one of the interface's errors, the
    store it leaves is the store it was given: users, projects, transactions and
    all. *)
Theorem refused_calls_change_nothing e s s' :
  interface_error e →
  (∀ a cu now, deposit a cu now s = (s', inl e) → s' = s) ∧
  (∀ a cu now, withdraw a cu now s = (s', inl e) → s' = s) ∧
  (∀ pid a cu now, invest_in_project pid a cu now s = (s', inl e) → s' = s) ∧
  (∀ ref cu now, manual_confirm_deposit ref cu now s = (s', inl e) → s' = s).
Proof.
  intros He%interface_error_not_internal. repeat split.
  - intros a cu now. rewrite deposit_eq.
    destruct (a <=? 0)%float; [congruence|].
    destruct (users s !! cu_userId cu); [done|congruence].
  - intros a cu now. rewrite withdraw_eq.
    destruct (a <=? 0)%float; [congruence|].
    destruct (users s !! cu_userId cu) as [u|]; [|congruence].
    destruct (walletBalance u <? a)%float; [congruence|done].
  - intros pid a cu now. rewrite invest_in_project_eq.
    destruct (projects s !! pid) as [p|]; [|congruence].
    destruct (decide (status p ≠ "open")); [congruence|].
    destruct (a <? minInvestment p)%float; [congruence|].
    destruct (users s !! cu_userId cu) as [u|]; [|congruence].
    destruct (walletBalance u <? a)%float; [congruence|done].
  - intros ref cu now. rewrite manual_confirm_deposit_eq.
    destruct (decide (cu_role cu ≠ "admin")); [congruence|].
    destruct (List.find _ _) as [t|]; [|congruence].
    destruct (decide (tx_status t = "completed")); [congruence|done].
Qed.

(** Balance 500, investment of 700 in the open project: [InsufficientFunds],
    and the store is the one before the call. *)
Lemma refused_calls_change_nothing_underfunded :
  fst (invest_in_project 2%N 700 alice_token 9%N open_store) = open_store.
Proof.
  refine (proj1 (proj2 (proj2 (refused_calls_change_nothing InsufficientFunds open_store _ _)))
            2%N 700%float alice_token 9%N _).
  - unfold interface_error. repeat constructor.
  - vm_compute. reflexivity.
Defined.

(** The same at the endpoints of the ledger, for every error: behind
    [get_current_user] the user document exists, so these handlers never fail
    after they have written. *)
Lemma refused_requests_change_nothing now s s' e :
  (∀ c a, handle (Deposit c a) now s = (s', inl e) → s' = s) ∧
  (∀ c a, handle (Withdraw c a) now s = (s', inl e) → s' = s) ∧
  (∀ c p a, handle (Invest c p a) now s = (s', inl e) → s' = s) ∧
  (∀ c ph a, handle (MomoDeposit c ph a) now s = (s', inl e) → s' = s) ∧
  (∀ c ph a, handle (MomoWithdraw c ph a) now s = (s', inl e) → s' = s) ∧
  (∀ c ref, handle (ConfirmPendingDeposit c ref) now s = (s', inl e) → s' = s).
Proof.
  repeat split; intros; revert H; unfold handle; rewrite void_eq, authenticated_eq;
    rewrite ?deposit_eq, ?withdraw_eq, ?invest_in_project_eq, ?mobile_money_deposit_eq,
      ?mobile_money_withdraw_eq, ?manual_confirm_deposit_eq;
    intros H; repeat case_match; simplify_eq/=; done.
Qed.

(** ** Invariants of the reachable stores *)

Lemma step_transactions r now s :
  transactions (step r now s) = transactions s ∨
  (∃ t, transactions (step r now s) = transactions s ++ [t] ∧
        (tx_type t = "momo_deposit" → tx_status t = "completed")) ∨
  (∃ ref by_ at_, transactions (step r now s)
        = update_first (has_ref ref) (set_confirmed by_ at_) (transactions s)).
Proof.
  step_cases r.
  all: try (left; reflexivity).
  all: try (right; left; eexists; split; [reflexivity|cbn; done]).
  all: right; right; eexists _, _, _; reflexivity.
Qed.

Lemma elem_of_update_first {A} (p : A → bool) (f : A → A) (l : list A) (x : A) :
  x ∈ update_first p f l → x ∈ l ∨ ∃ y, y ∈ l ∧ x = f y.
Proof.
  induction l as [|z l IH]; cbn; [by left|].
  destruct (p z); rewrite !elem_of_cons.
  - intros [->|Hx]; [right; exists z; split; [by left|done] | left; by right].
  - intros [->|Hx]; [left; by left|].
    destruct (IH Hx) as [?|(y & ? & ?)]; [left; by right|].
    right. exists y. split; [by right|done].
Qed.

Lemma momo_deposits_completed_step r now s :
  momo_deposits_completed s → momo_deposits_completed (step r now s).
Proof.
  intros Hs t.
  destruct (step_transactions r now s) as [->|[(t' & -> & Ht')|(ref & b & a & ->)]].
  - apply Hs.
  - rewrite elem_of_app, list_elem_of_singleton. intros [?| ->]; [by apply Hs|done].
  - intros [?|(y & ? & ->)]%elem_of_update_first; [by apply Hs|done].
Qed.

Lemma find_elem_of {A} (p : A → bool) (l : list A) (x : A) :
  List.find p l = Some x → x ∈ l ∧ p x = true.
Proof. intros [? ?]%find_some. by rewrite list_elem_of_In. Qed.

Lemma is_momo_deposit_with_ref_spec ref t :
  is_momo_deposit_with_ref ref t = true ↔
  transaction_ref t = Some ref ∧ tx_type t = "momo_deposit".
Proof.
  unfold is_momo_deposit_with_ref, has_ref.
  by rewrite andb_true_iff, !bool_decide_eq_true.
Qed.

(** Where every mobile-money deposit is completed, a confirmation is always
    refused and changes nothing. *)
Lemma confirm_refused ref cu now s :
  momo_deposits_completed s →
  ∃ e, manual_confirm_deposit ref cu now s = (s, inl e) ∧
       e ∈ [Forbidden; NotFound; AlreadyCompleted].
Proof.
  intros Hs. rewrite manual_confirm_deposit_eq.
  destruct (decide (cu_role cu ≠ "admin")); [eexists; split; [done|set_solver]|].
  destruct (List.find _ _) as [t|] eqn:Hf; [|eexists; split; [done|set_solver]].
  apply find_elem_of in Hf as [Ht [_ Hty]%is_momo_deposit_with_ref_spec].
  rewrite decide_True by by apply Hs.
  eexists; split; [done|set_solver].
Qed.

Lemma alter_all {A} (P : A → Prop) (f : A → A) (k : ObjectId) (m : gmap ObjectId A) :
  (∀ id x, m !! id = Some x → P x) →
  (∀ x, m !! k = Some x → P (f x)) →
  ∀ id x, alter f k m !! id = Some x → P x.
Proof.
  intros Hm Hk id x. destruct (decide (k = id)) as [<-|Hne].
  - rewrite lookup_alter_eq. destruct (m !! k) as [y|] eqn:Hy; cbn; [|done].
    intros [= <-]. by apply Hk.
  - rewrite lookup_alter_ne by done. apply Hm.
Qed.

Lemma insert_all {A} (P : A → Prop) (y : A) (k : ObjectId) (m : gmap ObjectId A) :
  (∀ id x, m !! id = Some x → P x) → P y →
  ∀ id x, <[k := y]> m !! id = Some x → P x.
Proof.
  intros Hm Hy id x. rewrite lookup_insert_Some.
  intros [[_ <-]|[_ ?]]; [done|by eapply Hm].
Qed.

Lemma delete_all {A} (P : A → Prop) (k : ObjectId) (m : gmap ObjectId A) :
  (∀ id x, m !! id = Some x → P x) →
  ∀ id x, delete k m !! id = Some x → P x.
Proof. intros Hm id x. rewrite lookup_delete_Some. intros [_ ?]. by eapply Hm. Qed.

Lemma running_total_snoc l x : running_total (l ++ [x]) = (running_total l + x)%float.
Proof. unfold running_total. by rewrite fold_left_app. Qed.

Lemma sum_amounts_app l i : sum_amounts (l ++ [i]) = (sum_amounts l + inv_amount i)%float.
Proof. unfold sum_amounts. rewrite fmap_app. exact (running_total_snoc _ _). Qed.

Ltac pending_momo_absurd :=
  lazymatch goal with
  | Hm : momo_deposits_completed ?s,
    Hf : List.find (is_momo_deposit_with_ref _) (transactions ?s) = Some ?t |- _ =>
      apply find_elem_of in Hf as [? [_ ?]%is_momo_deposit_with_ref_spec];
      exfalso; eauto
  end.

Lemma wallets_not_below_zero_step r now s :
  momo_deposits_completed s → wallets_not_below_zero s →
  wallets_not_below_zero (step r now s).
Proof.
  intros Hm Hw. unfold wallets_not_below_zero in *.
  step_cases r; try assumption; try pending_momo_absurd.
  all: try (apply insert_all; [assumption|reflexivity]).
  all: apply alter_all; [assumption|]; intros x Hx; pose proof (Hw _ _ Hx);
    simplify_eq; cbn;
    first [assumption | by apply credit_not_below_zero | by apply debit_not_below_zero].
Qed.

Lemma funded_is_sum_step r now s : funded_is_sum s → funded_is_sum (step r now s).
Proof.
  intros Hf. unfold funded_is_sum in *.
  step_cases r; try assumption.
  all: try (apply insert_all; [assumption|reflexivity]).
  all: try (apply delete_all; assumption).
  all: apply alter_all; [assumption|]; intros x Hx; pose proof (Hf _ _ Hx) as Hfx;
    cbn -[sum_amounts]; rewrite ?sum_amounts_app; cbn -[sum_amounts]; by rewrite ?Hfx.
Qed.

Lemma reachable_invariants s :
  reachable s → momo_deposits_completed s ∧ wallets_not_below_zero s ∧ funded_is_sum s.
Proof.
  induction 1 as [|r now s _ (Hm & Hw & Hf)].
  - split; [|split].
    + intros t Ht. by apply elem_of_nil in Ht.
    + intros id u Hu. cbn in Hu. by rewrite lookup_empty in Hu.
    + intros id p Hp. cbn in Hp. by rewrite lookup_empty in Hp.
  - auto using momo_deposits_completed_step, wallets_not_below_zero_step,
      funded_is_sum_step.
Qed.

Lemma reachable_open_store : reachable open_store.
Proof. unfold open_store, pending_store. do 2 apply reachable_run. apply reachable_init. Qed.

Lemma reachable_nearly_funded_store : reachable nearly_funded_store.
Proof. unfold nearly_funded_store. apply reachable_run, reachable_open_store. Qed.

Lemma reachable_large_store : reachable large_store.
Proof. unfold large_store. apply reachable_run, reachable_init. Qed.

(** ** Wallets never go below zero *)




(** ** Funded amount and investor entries *)

(** C4, as the code has it: in every reachable store, where projects are
    created with funded amount 0 and no investor and only [invest_in_project]
    touches either field, the funded amount of every project is the running
    total of the amounts of its investor entries: the amounts added one after
    the other in the order of the entries, each addition rounded to a double. *)
Theorem funded_amount_is_running_total s :
  reachable s →
  ∀ id p, projects s !! id = Some p →
          fundedAmount p = sum_amounts (investors p).
Proof. intros (_ & _ & Hf)%reachable_invariants. exact Hf. Qed.

Lemma funded_amount_is_running_total_nearly_funded :
  ∃ p, projects nearly_funded_store !! 2%N = Some p ∧
       fundedAmount p = sum_amounts (investors p) ∧ fundedAmount p = 900%float.
Proof.
  eexists. split; [vm_compute; reflexivity|]. split; [|reflexivity].
  refine (funded_amount_is_running_total nearly_funded_store
            reachable_nearly_funded_store 2%N _ _).
  vm_compute. reflexivity.
Defined.

(** C4 as stated fails.  After alice's investments of 1e16, 1 and 1 the
    project of [large_store] has these three entries and a funded amount of
    1e16, less than the 10000000000000002 the entries add up to (which is a
    double, and what adding them from the last one gives).  And after an
    investment whose amount is NaN, which [invest_in_project] accepts, the
    funded amount is NaN and equal to nothing. *)
Lemma funded_amount_is_not_the_sum :
  let s := run [(Invest alice_token 2%N 1, 7%N); (Invest alice_token 2%N 1, 8%N)]
               large_store in
  let s2 := step (Invest alice_token 2%N nan) 9%N open_store in
  reachable s ∧
  (∃ p, projects s !! 2%N = Some p ∧
        inv_amount <$> investors p = [1e16%float; 1%float; 1%float] ∧
        fundedAmount p = 1e16%float ∧
        (1e16 + (1 + 1) = 10000000000000002)%float ∧
        (fundedAmount p <? 10000000000000002)%float = true) ∧
  reachable s2 ∧
  (∃ q, projects s2 !! 2%N = Some q ∧
        inv_amount <$> investors q = [nan] ∧
        (fundedAmount q =? sum_amounts (investors q))%float = false).
Proof.
  cbv zeta. split_and!.
  - apply reachable_run, reachable_large_store.
  - eexists. split; [vm_compute; reflexivity|]. by split_and!.
  - apply reachable_step, reachable_open_store.
  - eexists. split; [vm_compute; reflexivity|]. by split_and!.
Qed.

(** ** Mobile-money deposits and their confirmation *)

Lemma update_first_keeps {A} (p : A → bool) (f : A → A) (l : list A) (x : A) :
  x ∈ l → x ∈ update_first p f l ∨ f x ∈ update_first p f l.
Proof.
  induction l as [|z l IH]; cbn; [by intros ?%elem_of_nil|].
  rewrite elem_of_cons. destruct (p z); rewrite !elem_of_cons.
  - intros [->|?]; [right; by left|left; by right].
  - intros [->|Hx]; [left; by left|]. destruct (IH Hx); [left|right]; by right.
Qed.

Lemma find_is_Some {A} (p : A → bool) (l : list A) (x : A) :
  x ∈ l → p x = true → ∃ y, List.find p l = Some y.
Proof.
  intros Hx Hp. destruct (List.find p l) as [y|] eqn:Hf; [by eexists|].
  apply list_elem_of_In in Hx. pose proof (find_none _ _ Hf _ Hx). congruence.
Qed.

(** A mobile-money deposit stored under a reference stays stored under it. *)
Lemma momo_reference_persists ref r now s :
  (∃ t, t ∈ transactions s ∧ is_momo_deposit_with_ref ref t = true) →
  ∃ t, t ∈ transactions (step r now s) ∧ is_momo_deposit_with_ref ref t = true.
Proof.
  intros (t & Ht & Hq).
  destruct (step_transactions r now s) as [->|[(t' & -> & _)|(ref' & b & a & ->)]].
  - eauto.
  - exists t. split; [|done]. apply elem_of_app. by left.
  - destruct (update_first_keeps (has_ref ref') (set_confirmed b a) _ _ Ht);
      [by exists t|]. eexists. split; [eassumption|].
    apply is_momo_deposit_with_ref_spec in Hq as [? ?].
    by apply is_momo_deposit_with_ref_spec.
Qed.

Lemma momo_run rs ref s :
  momo_deposits_completed s →
  (∃ t, t ∈ transactions s ∧ is_momo_deposit_with_ref ref t = true) →
  momo_deposits_completed (run rs s) ∧
  ∃ t, t ∈ transactions (run rs s) ∧ is_momo_deposit_with_ref ref t = true.
Proof.
  revert s. induction rs as [|[r now] rs IH]; intros s Hm Ht; cbn; [done|].
  apply IH; [by apply momo_deposits_completed_step|by apply momo_reference_persists].
Qed.

Lemma confirm_already_completed ref cu now s :
  momo_deposits_completed s →
  (∃ t, t ∈ transactions s ∧ is_momo_deposit_with_ref ref t = true) →
  cu_role cu = "admin" →
  manual_confirm_deposit ref cu now s = (s, inl AlreadyCompleted).
Proof.
  intros Hm (t & Ht & Hq) Hrole. rewrite manual_confirm_deposit_eq.
  rewrite decide_False by (intros ?; done).
  destruct (find_is_Some _ _ _ Ht Hq) as (y & Hy). rewrite Hy.
  apply find_elem_of in Hy as [Hy [_ Hty]%is_momo_deposit_with_ref_spec].
  by rewrite decide_True by by apply Hm.
Qed.

(** C10: in every reachable store every ["momo_deposit"] transaction is
    ["completed"], so a confirmation is always refused and changes nothing;
    [mobile_money_deposit], when it succeeds, has credited the wallet and
    appended the transaction already completed, and from then on, whatever
    requests follow, confirming the reference it returned fails
    [AlreadyCompleted]. *)
Theorem momo_deposits_never_pending s :
  reachable s →
  momo_deposits_completed s ∧
  (∀ ref cu now,
     ∃ e, manual_confirm_deposit ref cu now s = (s, inl e) ∧
          e ∈ [Forbidden; NotFound; AlreadyCompleted]) ∧
  (∀ phone a cu now s' resp,
     mobile_money_deposit phone a cu now s = (s', inr resp) →
     (∃ u t,
        users s !! cu_userId cu = Some u ∧
        users s' !! cu_userId cu = Some (inc_walletBalance a u) ∧
        transactions s' = transactions s ++ [t] ∧
        tx_type t = "momo_deposit" ∧ tx_status t = "completed" ∧
        amount t = a ∧ userId t = cu_userId cu ∧
        transaction_ref t = Some (md_transaction_ref resp)) ∧
     ∀ rs admin now',
       cu_role admin = "admin" →
       manual_confirm_deposit (md_transaction_ref resp) admin now' (run rs s')
       = (run rs s', inl AlreadyCompleted)).
Proof.
  intros (Hm & _ & _)%reachable_invariants. split; [assumption|]. split.
  - intros ref cu now. by apply confirm_refused.
  - intros phone a cu now s' resp. rewrite mobile_money_deposit_eq.
    destruct (users s !! cu_userId cu) as [u|] eqn:Hu; [|done].
    destruct (a <=? 0)%float; [done|]. destruct (a <? 100)%float; [done|].
    intros [= <- <-]. cbn. split.
    + eexists u, _. rewrite lookup_alter_eq, Hu. cbn. by repeat split.
    + intros rs admin now' Hrole.
      set (s' := momo_deposited (cu_userId cu) phone a now s).
      set (t := momo_deposit_transaction (cu_userId cu) a phone
                  ("WFD" ++ strftime now)%string now (next_oid s)).
      assert (transactions s' = transactions s ++ [t]) as Htx by done.
      destruct (momo_run rs ("WFD" ++ strftime now)%string s') as [Hm' Ht'].
      * intros x. rewrite Htx, elem_of_app, list_elem_of_singleton.
        intros [?| ->]; [by apply Hm|done].
      * exists t. rewrite Htx, elem_of_app, list_elem_of_singleton.
        split; [by right|]. by apply is_momo_deposit_with_ref_spec.
      * by apply confirm_already_completed.
Qed.

(** Alice deposits 200 by mobile money at 2024-01-01 12:00:00, then withdraws
    50; the administrator's confirmation of the reference is refused. *)
Lemma momo_deposits_never_pending_open_store :
  manual_confirm_deposit "WFD20240101120000" admin_token 20240101130000%N
    (run [(Withdraw alice_token 50, 20240101120500%N)]
         (fst (mobile_money_deposit "677000000" 200 alice_token 20240101120000%N open_store)))
  = (run [(Withdraw alice_token 50, 20240101120500%N)]
         (fst (mobile_money_deposit "677000000" 200 alice_token 20240101120000%N open_store)),
     inl AlreadyCompleted).
Proof.
  refine (proj2 (proj2 (proj2 (momo_deposits_never_pending open_store reachable_open_store))
                   "677000000" 200%float alice_token 20240101120000%N _
                   {| md_transaction_ref := "WFD20240101120000"; md_amount := 200 |} _)
            [(Withdraw alice_token 50, 20240101120500%N)] admin_token 20240101130000%N _).
  - vm_compute. reflexivity.
  - reflexivity.
Defined.

(** ** Confirming a pending deposit *)







Lemma prefix_append (p x : string) : String.prefix p (p +:+ x) = true.
Proof.
  induction p as [|c p IH]; [by destruct x|].
  change (String.prefix (String c p) (String c (p +:+ x)) = true).
  cbn [String.prefix]. by destruct (Ascii.ascii_dec c c).
Qed.

(** The handlers keep references typed. *)
Lemma references_typed_step r now s :
  references_typed s → references_typed (step r now s).
Proof.
  intros Hs. unfold references_typed in *.
  step_cases r; try assumption.
  all: intros x Hx.
  all: try (apply elem_of_app in Hx as [Hx|Hx%list_elem_of_singleton];
            [by apply Hs|by subst x]).
  all: try (apply elem_of_update_first in Hx as [Hx|(y & Hy & ->)]; [by apply Hs|];
            intros ref' Href; apply (Hs _ Hy ref' Href)).
  all: apply elem_of_app in Hx as [Hx|Hx%list_elem_of_singleton]; [by apply Hs|].
  all: subst x; intros ref' Href; cbn in Href; injection Href as <-.
  - left. split; [reflexivity|]. apply prefix_append.
  - right. split; [reflexivity|]. apply prefix_append.
Qed.

Lemma reachable_references_typed s : reachable s → references_typed s.
Proof.
  induction 1 as [|r now s _ IH]; [|by apply references_typed_step].
  intros t Ht. by apply elem_of_nil in Ht.
Qed.



(** ** Funded amounts over time *)

(** C5 on [lenient_store], whose project was created with minimum investment
    -10: [invest_in_project] only compares the amount with the minimum, so the
    investment of -5 is accepted; the funded amount goes from 0 to -5 and
    alice's wallet from 0 to 5. *)
Theorem negative_investment_lowers_funded_amount :
  let s' := step (Invest alice_token 2%N (-5)) 5%N lenient_store in
  reachable lenient_store ∧
  fundedAmount <$> projects lenient_store !! 2%N = Some 0%float ∧
  fundedAmount <$> projects s' !! 2%N = Some (-5)%float ∧
  walletBalance <$> users lenient_store !! 1%N = Some 0%float ∧
  walletBalance <$> users s' !! 1%N = Some 5%float ∧
  snd (invest_in_project 2%N (-5) alice_token 5%N lenient_store)
  = inr {| ir_walletBalance := 5; ir_totalInvested := -5 |}.
Proof.
  cbv zeta. split.
  - unfold lenient_store. apply reachable_run, reachable_init.
  - repeat split; vm_compute; reflexivity.
Qed.

(** ** The scenarios of the specification, run on the handlers *)

(** Deposit then invest: balance 0, [Deposit 1000], project of goal 5000 and
    minimum 500 open, [Invest 1000]: balance 0, total invested 1000, funded
    1000, status still open. *)
Example scenario_deposit_then_invest :
  let s :=
    run [(Register (mkUserRegister "admin" "admin@wefund" 30), 1%N);
         (Register (mkUserRegister "alice" "alice@wefund" 20), 2%N);
         (CreateProject admin_token (mkProjectCreate "Mill" 5000 500), 3%N);
         (VerifyProject admin_token 2%N, 4%N);
         (Deposit alice_token 1000, 5%N);
         (Invest alice_token 2%N 1000, 6%N)] empty_db in
  (λ u, (walletBalance u, totalInvested u)) <$> users s !! 1%N
  = Some (0%float, 1000%float) ∧
  (λ p, (fundedAmount p, status p)) <$> projects s !! 2%N = Some (1000%float, "open").
Proof. cbv zeta. split; vm_compute; reflexivity. Qed.

(** Underfunded invest: balance 100, [Invest 500] fails [InsufficientFunds] and
    nothing moves. *)
Example scenario_underfunded_invest :
  let s :=
    run [(Register (mkUserRegister "admin" "admin@wefund" 30), 1%N);
         (Register (mkUserRegister "alice" "alice@wefund" 20), 2%N);
         (CreateProject admin_token (mkProjectCreate "Mill" 5000 500), 3%N);
         (VerifyProject admin_token 2%N, 4%N);
         (Deposit alice_token 100, 5%N)] empty_db in
  invest_in_project 2%N 500 alice_token 6%N s = (s, inl InsufficientFunds) ∧
  walletBalance <$> users s !! 1%N = Some 100%float.
Proof. cbv zeta. split; vm_compute; reflexivity. Qed.

(** Exact goal closure: goal 1000, funded 900, [Invest 100]: funded 1000 and
    the project closed. *)
Example scenario_exact_goal_closure :
  (λ p, (fundedAmount p, status p)) <$>
    projects (step (Invest alice_token 2%N 100) 8%N nearly_funded_store) !! 2%N
  = Some (1000%float, "closed").
Proof. vm_compute. reflexivity. Qed.

(** Withdraw exceeding balance: balance 200, [Withdraw 300] fails
    [InsufficientFunds] and the balance stays. *)
Example scenario_withdraw_exceeding_balance :
  let s :=
    run [(Register (mkUserRegister "admin" "admin@wefund" 30), 1%N);
         (Register (mkUserRegister "alice" "alice@wefund" 20), 2%N);
         (Deposit alice_token 200, 3%N)] empty_db in
  withdraw 300 alice_token 4%N s = (s, inl InsufficientFunds) ∧
  walletBalance <$> users s !! 1%N = Some 200%float.
Proof. cbv zeta. split; vm_compute; reflexivity. Qed.

(** ** One request, one effect *)

Lemma find_email_none (e : string) (m : gmap ObjectId User) :
  List.find (λ kv, String.eqb (email (snd kv)) e) (map_to_list m) = None →
  ∀ id v, m !! id = Some v → email v ≠ e.
Proof.
  intros Hnone id v Hv He.
  apply elem_of_map_to_list, list_elem_of_In in Hv.
  pose proof (find_none _ _ Hnone _ Hv) as Hf. cbn in Hf.
  apply String.eqb_neq in Hf. done.
Qed.

Ltac effect_premise :=
  first [reflexivity | eassumption | cbn; eassumption | cbn; lia | done
        | by intros [] | cbn; set_solver
        | match goal with n : ¬ ?x ≠ ?y |- ?x = ?y => by destruct (decide (x = y)) end].

Lemma step_effect r now s :
  momo_deposits_completed s → Effect s (step r now s).
Proof.
  intros Hm. step_cases r.
  all: try (by apply Eff_none).
  all: lazymatch goal with
       | Hf : List.find (is_momo_deposit_with_ref _) _ = Some ?t |- _ =>
           apply find_elem_of in Hf as [Ht [_ Hty]%is_momo_deposit_with_ref_spec];
           specialize (Hm _ Ht Hty); done
       | |- Effect _ (deposited _ _ _ _) => eapply Eff_wallet; effect_premise
       | |- Effect _ (withdrawn _ _ _ _) => eapply Eff_wallet; effect_premise
       | |- Effect _ (momo_deposited _ _ _ _ _) => eapply Eff_wallet; effect_premise
       | |- Effect _ (momo_withdrawn _ _ _ _ _) => eapply Eff_wallet; effect_premise
       | |- Effect _ (invested _ _ _ _ _ _) => eapply Eff_invest; effect_premise
       | |- Effect _ (set_projects (delete _) _) => eapply Eff_project_delete; reflexivity
       | |- Effect _ (set_projects (alter _ _) _) =>
           eapply Eff_project_flags; effect_premise
       | |- Effect _ (set_users (alter _ _) _) => eapply Eff_user_flags; effect_premise
       | |- Effect _ {| users := <[_ := _]> _ |} =>
           eapply Eff_register; first [by apply find_email_none | reflexivity]
       | |- Effect _ {| projects := <[_ := _]> _ |} =>
           eapply Eff_project_new; reflexivity
       end.
Qed.

Lemma reachable_effect r now s : reachable s → Effect s (step r now s).
Proof. intros (Hm & _)%reachable_invariants. by apply step_effect. Qed.

(** ** Ids are fresh *)

Ltac split_lookups :=
  repeat match goal with
    | H : _ ∈ _ ++ [_] |- _ => apply elem_of_app in H as [H|H%list_elem_of_singleton]
    | H : <[_:=_]> _ !! _ = Some _ |- _ => apply lookup_insert_Some in H as [[? ?]|[? H]]
    | H : alter _ _ _ !! _ = Some _ |- _ =>
        apply lookup_alter_Some in H as [[? (? & H & ?)]|[? H]]
    | H : delete _ _ !! _ = Some _ |- _ => apply lookup_delete_Some in H as [? H]
    end.

Lemma ids_below_effect s s' : Effect s s' → ids_below s → ids_below s'.
Proof.
  intros He [Hu Hp Hti Htu Htp].
  destruct He as [->|u Hus _ _ _ _ _ Hps Hts Hn
                 |u t Hts Hut Hus Hid Hpid _ _ _ Hps Hn
                 |u p t now' Hts Hut Hus Hid _ _ pid Hpid Hp' _ _ _ Hps Hn
                 |p Hps _ _ _ Hus Hts Hn
                 |pid f Hps _ Hus Hts Hn
                 |pid Hps Hus Hts Hn
                 |uid f Hus _ Hps Hts Hn]; [done|..].
  all: split; rewrite ?Hus, ?Hps, ?Hts, ?Hn; intros; split_lookups; subst.
  all: repeat match goal with
         | H : users _ !! _ = Some _ |- _ => apply Hu in H
         | H : projects _ !! _ = Some _ |- _ => apply Hp in H
         | H : ?x ∈ transactions _, Hq : projectId ?x = Some _ |- _ =>
             pose proof (Htp _ _ H Hq); clear Hq
         | H : ?x ∈ transactions _ |- _ =>
             pose proof (Hti _ H); pose proof (Htu _ H); clear H
         end.
  all: try lia.
  all: congruence || (simplify_eq; lia).
Qed.

Lemma reachable_ids_below s : reachable s → ids_below s.
Proof.
  induction 1 as [|r now s Hs IH].
  - split; cbn; intros *; rewrite ?lookup_empty, ?elem_of_nil; done.
  - eapply ids_below_effect; [by apply reachable_effect|done].
Qed.

(** ** Accounts: one email each, and no role but member *)

Lemma emails_unique_alter (f : User → User) (k : ObjectId) (m : gmap ObjectId User) :
  (∀ u, email (f u) = email u) →
  (∀ i j u v, m !! i = Some u → m !! j = Some v → email u = email v → i = j) →
  ∀ i j u v, alter f k m !! i = Some u → alter f k m !! j = Some v →
             email u = email v → i = j.
Proof.
  intros Hf Hm i j u v Hu Hv He.
  assert (∃ u0, m !! i = Some u0 ∧ email u0 = email u) as (u0 & Hu0 & Heu).
  { apply lookup_alter_Some in Hu as [[_ (x & ? & ->)]|[_ ?]]; eauto. }
  assert (∃ v0, m !! j = Some v0 ∧ email v0 = email v) as (v0 & Hv0 & Hev).
  { apply lookup_alter_Some in Hv as [[_ (x & ? & ->)]|[_ ?]]; eauto. }
  eapply Hm; [done..|congruence].
Qed.

Lemma emails_unique_effect s s' : Effect s s' → emails_unique s → emails_unique s'.
Proof.
  intros He Hs. unfold emails_unique in *.
  destruct He as [->|u Hus _ _ _ _ Hnew _ _ _
                 |u t _ _ Hus _ _ _ _ _ _ _
                 |u p t now' _ _ Hus _ _ _ pid _ _ _ _ _ _ _
                 |p _ _ _ _ Hus _ _
                 |pid f _ _ Hus _ _
                 |pid _ Hus _ _
                 |uid f Hus Hf _ _ _]; rewrite ?Hus; try done.
  - intros i j x y. rewrite !lookup_insert_Some.
    intros [[<- <-]|[? Hx]] [[<- <-]|[? Hy]] He; [done| | |by eapply Hs].
    + by apply Hnew in Hy.
    + by apply Hnew in Hx.
  - by apply emails_unique_alter.
  - by apply emails_unique_alter.
  - apply emails_unique_alter; [|done]. intros x. apply Hf.
Qed.

(** X1. Two different accounts of a reachable store never have the same
    email: [register] refuses an email that an account already holds, and no
    other route writes the field. *)
Theorem registered_emails_are_unique s i j u v :
  reachable s →
  users s !! i = Some u → users s !! j = Some v → i ≠ j → email u ≠ email v.
Proof.
  intros Hs Hu Hv Hij He. apply Hij. clear Hij. revert i j u v Hu Hv He.
  induction Hs as [|r now s Hs IH].
  - intros i j u v Hu. cbn in Hu. by rewrite lookup_empty in Hu.
  - apply (emails_unique_effect s); [by apply reachable_effect|exact IH].
Qed.

(** The two accounts of [open_store]. *)
Lemma registered_emails_are_unique_open_store :
  email alice_500 ≠ "admin@wefund".
Proof.
  refine (registered_emails_are_unique open_store 1%N 0%N alice_500
            {| name := "admin"; email := "admin@wefund"; age := 30; role := "member";
               walletBalance := 0; totalInvested := 0; totalReturns := 0;
               user_verified := false; user_blocked := false; createdAt := 1%N |}
            reachable_open_store _ _ _).
  - vm_compute. reflexivity.
  - vm_compute. reflexivity.
  - discriminate.
Defined.

(** X2. Every account of a reachable store has the role ["member"]: [register]
    writes it and no route changes it, so no request makes an administrator. *)
Theorem accounts_are_members s :
  reachable s → ∀ id u, users s !! id = Some u → role u = "member".
Proof.
  induction 1 as [|r now s Hs IH].
  - intros id u Hu. cbn in Hu. by rewrite lookup_empty in Hu.
  - destruct (reachable_effect r now s Hs)
      as [->|u Hus _ _ Hrole _ _ _ _ _
         |u t _ _ Hus _ _ _ _ _ _ _
         |u p t now' _ _ Hus _ _ _ pid _ _ _ _ _ _ _
         |p _ _ _ _ Hus _ _
         |pid f _ _ Hus _ _
         |pid _ Hus _ _
         |uid f Hus Hf _ _ _]; rewrite ?Hus; try done.
    + by apply insert_all.
    + apply alter_all; [done|]. intros x Hx. by apply IH in Hx.
    + apply alter_all; [done|]. intros x Hx. by apply IH in Hx.
    + apply alter_all; [done|]. intros x Hx. apply IH in Hx.
      by destruct (Hf x) as (_ & -> & _).
Qed.

Lemma accounts_are_members_open_store : role alice_500 = "member".
Proof.
  refine (accounts_are_members open_store reachable_open_store 1%N alice_500 _).
  vm_compute. reflexivity.
Defined.

(** ** Wallets and the ledger agree *)

Lemma filter_snoc {A} (p : A → bool) (l : list A) (x : A) :
  List.filter p (l ++ [x]) = List.filter p l ++ (if p x then [x] else []).
Proof. rewrite List.filter_app. cbn. by destruct (p x). Qed.

Lemma filter_none {A} (p : A → bool) (l : list A) :
  (∀ x, x ∈ l → p x = false) → List.filter p l = [].
Proof.
  induction l as [|x l IH]; cbn; [done|]. intros H.
  rewrite (H x) by by left. apply IH. intros y Hy. apply H. by right.
Qed.

Lemma ledger_balance_snoc uid l t :
  ledger_balance uid (l ++ [t])
  = if bool_decide (userId t = uid) then (ledger_balance uid l + wallet_delta t)%float
    else ledger_balance uid l.
Proof.
  unfold ledger_balance. rewrite filter_snoc.
  destruct (bool_decide (userId t = uid)).
  - rewrite fmap_app. exact (running_total_snoc _ _).
  - by rewrite app_nil_r.
Qed.

Lemma investments_of_user_snoc uid l t :
  sum_tx_amounts (investments_of_user uid (l ++ [t]))
  = if bool_decide (userId t = uid) && bool_decide (tx_type t = "investment")
    then (sum_tx_amounts (investments_of_user uid l) + amount t)%float
    else sum_tx_amounts (investments_of_user uid l).
Proof.
  unfold sum_tx_amounts, investments_of_user. rewrite filter_snoc.
  destruct (_ && _).
  - rewrite fmap_app. exact (running_total_snoc _ _).
  - by rewrite app_nil_r.
Qed.

Lemma wallet_delta_investment t :
  tx_type t = "investment" → wallet_delta t = (- amount t)%float.
Proof. intros H. unfold wallet_delta. rewrite H. reflexivity. Qed.

Lemma ledger_agrees_effect s s' :
  Effect s s' → ids_below s → ledger_agrees s → ledger_agrees s'.
Proof.
  intros He Hid Hs. unfold ledger_agrees in *.
  destruct He as [->|u Hus Hw Hi _ _ _ _ Hts _
                 |u t Hts Hut Hus _ _ _ _ Hty _ _
                 |u p t now' Hts Hut Hus _ Hty _ pid _ _ _ _ _ _ _
                 |p _ _ _ _ Hus Hts _
                 |pid f _ _ Hus Hts _
                 |pid _ Hus Hts _
                 |uid f Hus Hf _ Hts _]; rewrite ?Hus, ?Hts; try done.
  - (* register *)
    intros uid x. rewrite lookup_insert_Some. intros [[<- <-]|[_ Hx]]; [|by apply Hs].
    rewrite Hw, Hi. unfold ledger_balance, sum_tx_amounts, investments_of_user.
    rewrite !filter_none; [done|..]; intros y Hy; apply (tx_users_below _ Hid) in Hy.
    + apply andb_false_intro1, bool_decide_eq_false. lia.
    + apply bool_decide_eq_false. lia.
  - (* deposit, withdraw, mobile money *)
    intros uid x. rewrite ledger_balance_snoc, investments_of_user_snoc.
    rewrite (bool_decide_eq_false_2 (tx_type t = "investment")) by done.
    rewrite andb_false_r.
    rewrite lookup_alter_Some. intros [[<- (y & Hy & ->)]|[Hne Hx]].
    + rewrite bool_decide_eq_true_2 by done. destruct (Hs _ _ Hy) as [Hb Hi]. cbn.
      by rewrite Hb, Hi.
    + rewrite bool_decide_eq_false_2 by done. by apply Hs.
  - (* invest *)
    intros uid x. rewrite ledger_balance_snoc, investments_of_user_snoc.
    rewrite (bool_decide_eq_true_2 (tx_type t = "investment")) by done.
    rewrite andb_true_r, wallet_delta_investment by done.
    rewrite lookup_alter_Some. intros [[<- (y & Hy & ->)]|[Hne Hx]].
    + rewrite bool_decide_eq_true_2 by done. destruct (Hs _ _ Hy) as [Hb Hi]. cbn.
      by rewrite Hb, Hi.
    + rewrite bool_decide_eq_false_2 by done. by apply Hs.
  - (* user flags *)
    intros uid' x. rewrite lookup_alter_Some. intros [[<- (y & Hy & ->)]|[Hne Hx]];
      [|by apply Hs].
    destruct (Hf y) as (_ & _ & -> & -> & _). by apply Hs.
Qed.

(** X3. In every reachable store the wallet balance of each account is what
    replaying its transactions gives: starting from 0, the amount of each
    deposit and mobile-money deposit added and that of each withdrawal, mobile
    withdrawal and investment taken off, one after the other in the order of
    the ledger, with the rounding of doubles; and its [totalInvested] is the
    running total of its investment transactions. *)
Theorem wallet_is_replay_of_ledger s uid u :
  reachable s → users s !! uid = Some u →
  walletBalance u = ledger_balance uid (transactions s) ∧
  totalInvested u = sum_tx_amounts (investments_of_user uid (transactions s)).
Proof.
  intros Hs. revert uid u. induction Hs as [|r now s Hs IH].
  - intros uid u Hu. cbn in Hu. by rewrite lookup_empty in Hu.
  - apply (ledger_agrees_effect s);
      [by apply reachable_effect|by apply reachable_ids_below|exact IH].
Qed.

(** Alice after deposits of 500 and 1000 and an investment of 900. *)
Lemma wallet_is_replay_of_ledger_nearly_funded :
  600%float = ledger_balance 1%N (transactions nearly_funded_store) ∧
  900%float = sum_tx_amounts (investments_of_user 1%N (transactions nearly_funded_store)).
Proof.
  refine (wallet_is_replay_of_ledger nearly_funded_store 1%N
            {| name := "alice"; email := "alice@wefund"; age := 20; role := "member";
               walletBalance := 600; totalInvested := 900; totalReturns := 0;
               user_verified := false; user_blocked := false; createdAt := 2%N |}
            reachable_nearly_funded_store _).
  vm_compute. reflexivity.
Defined.

(** ** Investor entries and investment transactions agree *)

Lemma investments_in_project_snoc pid l t :
  investments_in_project pid (l ++ [t])
  = investments_in_project pid l
    ++ (if bool_decide (projectId t = Some pid) && bool_decide (tx_type t = "investment")
        then [t] else []).
Proof. unfold investments_in_project. by rewrite filter_snoc. Qed.

Lemma investors_agree_effect s s' :
  Effect s s' → ids_below s → investors_agree s → investors_agree s'.
Proof.
  intros He Hid Hs. unfold investors_agree in *.
  destruct He as [->|u _ _ _ _ _ _ Hps Hts _
                 |u t Hts _ _ _ Hpid _ _ _ Hps _
                 |u p t now' Hts _ _ _ Hty _ pid Hpid _ _ _ _ Hps _
                 |p Hps _ Hinv _ _ Hts _
                 |pid f Hps Hf _ Hts _
                 |pid Hps _ Hts _
                 |uid f _ _ Hps Hts _]; rewrite ?Hps, ?Hts; try done.
  - (* deposit, withdraw, mobile money *)
    intros pid p Hp. rewrite investments_in_project_snoc, Hpid.
    rewrite (bool_decide_eq_false_2 (None = Some pid)) by done.
    cbn. rewrite app_nil_r. by apply Hs.
  - (* invest *)
    intros q x. rewrite investments_in_project_snoc, Hpid.
    rewrite (bool_decide_eq_true_2 (tx_type t = "investment")) by done.
    rewrite andb_true_r, lookup_alter_Some. intros [[<- (y & Hy & ->)]|[Hne Hx]].
    + rewrite bool_decide_eq_true_2 by done. cbn. rewrite !fmap_app. cbn.
      by rewrite (Hs _ _ Hy).
    + rewrite bool_decide_eq_false_2 by congruence. rewrite app_nil_r. by apply Hs.
  - (* create_project *)
    intros q x. rewrite lookup_insert_Some. intros [[<- <-]|[_ Hx]]; [|by apply Hs].
    rewrite Hinv. unfold investments_in_project. rewrite filter_none; [done|].
    intros y Hy. apply andb_false_intro1, bool_decide_eq_false. intros Hq.
    pose proof (tx_projects_below _ Hid _ _ Hy Hq). lia.
  - (* verify, block, review *)
    intros q x. rewrite lookup_alter_Some. intros [[<- (y & Hy & ->)]|[Hne Hx]];
      [|by apply Hs].
    destruct (Hf y) as (_ & _ & _ & _ & ->). by apply Hs.
  - (* delete *)
    intros q x. rewrite lookup_delete_Some. intros [_ Hx]. by apply Hs.
Qed.

Lemma reachable_investors_agree s : reachable s → investors_agree s.
Proof.
  induction 1 as [|r now s Hs IH].
  - intros pid p Hp. cbn in Hp. by rewrite lookup_empty in Hp.
  - apply (investors_agree_effect s);
      [by apply reachable_effect|by apply reachable_ids_below|exact IH].
Qed.

(** X4. For every project of a reachable store, its investor entries are, in
    order, the users and amounts of the investment transactions that refer to
    it, and its funded amount is the running total of those transactions, in
    the order of the ledger. *)
Theorem project_matches_ledger s pid p :
  reachable s → projects s !! pid = Some p →
  (λ i, (inv_userId i, inv_amount i)) <$> investors p
  = (λ t, (userId t, amount t)) <$> investments_in_project pid (transactions s) ∧
  fundedAmount p = sum_tx_amounts (investments_in_project pid (transactions s)).
Proof.
  intros Hs Hp. pose proof (reachable_investors_agree s Hs pid p Hp) as Hi.
  split; [done|].
  destruct (reachable_invariants s Hs) as (_ & _ & Hf). rewrite (Hf _ _ Hp).
  unfold sum_amounts, sum_tx_amounts.
  apply (f_equal (fmap snd)) in Hi. rewrite <- !list_fmap_compose in Hi.
  exact (f_equal running_total Hi).
Qed.

Lemma project_matches_ledger_nearly_funded :
  [(1%N, 900%float)]
  = (λ t, (userId t, amount t)) <$> investments_in_project 2%N (transactions nearly_funded_store)
  ∧ 900%float = sum_tx_amounts (investments_in_project 2%N (transactions nearly_funded_store)).
Proof.
  refine (project_matches_ledger nearly_funded_store 2%N
            {| title := "Solar farm"; fundingGoal := 1000; fundedAmount := 900;
               minInvestment := 50; status := "open"; project_verified := true;
               project_blocked := false;
               investors := [{| inv_userId := 1%N; inv_amount := 900; inv_date := 7%N |}] |}
            reachable_nearly_funded_store _).
  vm_compute. reflexivity.
Defined.

(** ** The ledger only grows *)

(** X5. A request answered in a reachable store leaves every stored
    transaction as it was and in place, and appends at most one. *)
Theorem ledger_is_append_only s r now :
  reachable s →
  ∃ l, transactions (step r now s) = transactions s ++ l ∧ (length l <= 1)%nat.
Proof.
  intros Hs.
  destruct (reachable_effect r now s Hs)
    as [->|u _ _ _ _ _ _ _ Hts _
       |u t Hts _ _ _ _ _ _ _ _ _
       |u p t now' Hts _ _ _ _ _ pid _ _ _ _ _ _ _
       |p _ _ _ _ _ Hts _
       |pid f _ _ _ Hts _
       |pid _ _ Hts _
       |uid f _ _ _ Hts _]; rewrite ?Hts.
  all: first [eexists [_]; split; [reflexivity|cbn; lia]
             | exists []; rewrite app_nil_r; split; [reflexivity|cbn; lia]].
Qed.

Lemma ledger_is_append_only_open_store :
  ∃ l, transactions (step (Withdraw alice_token 50) 9%N open_store)
       = transactions open_store ++ l ∧ (length l <= 1)%nat.
Proof. exact (ledger_is_append_only open_store _ _ reachable_open_store). Defined.

Lemma reachable_written_kinds s t :
  reachable s → t ∈ transactions s → (tx_type t, tx_status t) ∈ written_kinds.
Proof.
  intros Hs. revert t. induction Hs as [|r now s Hs IH]; [by intros t ?%elem_of_nil|].
  destruct (reachable_effect r now s Hs)
    as [->|u _ _ _ _ _ _ _ Hts _
       |u x Hts _ _ _ _ _ Hk _ _ _
       |u p x now' Hts _ _ _ Hty Hst pid _ _ _ _ _ _ _
       |p _ _ _ _ _ Hts _
       |pid f _ _ _ Hts _
       |pid _ _ Hts _
       |uid f _ _ _ Hts _]; rewrite ?Hts; try done.
  - intros t [Ht|Ht%list_elem_of_singleton]%elem_of_app; [by apply IH|]. by subst.
  - intros t [Ht|Ht%list_elem_of_singleton]%elem_of_app; [by apply IH|]. subst.
    rewrite Hty, Hst. unfold written_kinds. set_solver.
Qed.

Lemma written_kinds_spec ty st :
  (ty, st) ∈ written_kinds →
  ty ∈ ["deposit"; "withdraw"; "investment"; "momo_deposit"; "mobile_withdrawal"] ∧
  (ty = "mobile_withdrawal" → st = "pending") ∧
  (ty ≠ "mobile_withdrawal" → st = "completed").
Proof.
  unfold written_kinds. rewrite !elem_of_cons, elem_of_nil.
  intros [Hk|[Hk|[Hk|[Hk|[Hk|[]]]]]]; injection Hk as -> ->;
    (split; [set_solver|split; [done|done]]).
Qed.

(** X6. Every transaction of a reachable store has one of the five types the
    handlers write; a ["mobile_withdrawal"] is ["pending"], since no route ever
    settles one, and every other transaction is ["completed"]. *)
Theorem transactions_keep_written_kind s t :
  reachable s → t ∈ transactions s →
  tx_type t ∈ ["deposit"; "withdraw"; "investment"; "momo_deposit"; "mobile_withdrawal"] ∧
  (tx_type t = "mobile_withdrawal" → tx_status t = "pending") ∧
  (tx_type t ≠ "mobile_withdrawal" → tx_status t = "completed").
Proof. intros Hs Ht. apply written_kinds_spec. by apply (reachable_written_kinds s). Qed.

(** After a mobile withdrawal of 500 by alice the ledger holds it, pending. *)
Lemma transactions_keep_written_kind_withdrawal :
  tx_status (mobile_withdrawal_transaction 1%N 500 "677000000" "WFW9" 9%N 6%N) = "pending".
Proof.
  refine (proj1 (proj2 (transactions_keep_written_kind
            (run [(MomoWithdraw alice_token "677000000" 500, 9%N)] nearly_funded_store)
            (mobile_withdrawal_transaction 1%N 500 "677000000" "WFW9" 9%N 6%N) _ _)) _).
  - apply reachable_run, reachable_nearly_funded_store.
  - apply (list_elem_of_lookup_2 _ 3). vm_compute. reflexivity.
  - reflexivity.
Defined.

(** ** Projects keep what they were created with *)

(** X7. Whatever request is answered in a reachable store, a project that is
    still there afterwards has the title, funding goal and minimum investment
    it had, and its investor entries are the former ones, in place, with
    further ones appended. *)
Theorem project_terms_are_immutable s r now pid p p' :
  reachable s →
  projects s !! pid = Some p → projects (step r now s) !! pid = Some p' →
  title p' = title p ∧ fundingGoal p' = fundingGoal p ∧
  minInvestment p' = minInvestment p ∧ ∃ l, investors p' = investors p ++ l.
Proof.
  intros Hs Hp. pose proof (project_ids_below _ (reachable_ids_below s Hs) _ _ Hp) as Hlt.
  assert (∀ q : Project, ∃ l, investors q = investors q ++ l) as Hnil
    by (intros q; exists []; by rewrite app_nil_r).
  destruct (reachable_effect r now s Hs)
    as [->|u _ _ _ _ _ _ Hps _ _
       |u t _ _ _ _ _ _ _ _ Hps _
       |u q t now' _ _ _ _ _ _ pid' _ _ _ _ _ Hps _
       |q Hps _ _ _ _ _ _
       |pid' f Hps Hf _ _ _
       |pid' Hps _ _ _
       |uid f _ _ Hps _ _]; rewrite ?Hps.
  all: intros Hp'; split_lookups; simplify_eq; try done.
  - cbn. repeat split; try done. by eexists.
  - lia.
  - destruct (Hf p) as (-> & -> & _ & -> & ->). done.
Qed.

Lemma project_terms_are_immutable_open_store :
  ∃ p', projects (step (Invest alice_token 2%N 100) 9%N open_store) !! 2%N = Some p' ∧
        title p' = "Solar farm" ∧ fundingGoal p' = 1000%float ∧
        minInvestment p' = 50%float.
Proof.
  eexists. split; [vm_compute; reflexivity|].
  destruct (project_terms_are_immutable open_store (Invest alice_token 2%N 100) 9%N 2%N
              {| title := "Solar farm"; fundingGoal := 1000; fundedAmount := 0;
                 minInvestment := 50; status := "open"; project_verified := true;
                 project_blocked := false; investors := [] |}
              {| title := "Solar farm"; fundingGoal := 1000; fundedAmount := 100;
                 minInvestment := 50; status := "open"; project_verified := true;
                 project_blocked := false;
                 investors := [{| inv_userId := 1%N; inv_amount := 100; inv_date := 9%N |}] |}
              reachable_open_store) as (Ht & Hg & Hm & _).
  - vm_compute. reflexivity.
  - vm_compute. reflexivity.
  - done.
Defined.

(** ** Deposits *)

Lemma find_has_id_snoc id l x :
  (∀ t, t ∈ l → tx_id t ≠ id) → tx_id x = id →
  List.find (has_id id) (l ++ [x]) = Some x.
Proof.
  intros Hl Hx. induction l as [|z l IH]; cbn.
  - unfold has_id. by rewrite bool_decide_eq_true_2.
  - unfold has_id at 1. rewrite bool_decide_eq_false_2 by (apply Hl; by left).
    apply IH. intros t Ht. apply Hl. by right.
Qed.

(** X8. [deposit] refuses an amount that is not positive with [InvalidAmount]
    and changes nothing; otherwise, for a user of the store, it replaces the
    wallet balance by the double [walletBalance + amount], appends one
    completed ["deposit"] transaction of that amount, touches no other account
    and no project, and returns the balance it has stored. *)
Theorem deposit_contract a cu now s u :
  users s !! cu_userId cu = Some u →
  ((a <=? 0)%float = true → deposit a cu now s = (s, inl InvalidAmount)) ∧
  ((a <=? 0)%float = false →
   ∃ s' resp u' t,
     deposit a cu now s = (s', inr resp) ∧
     users s' !! cu_userId cu = Some u' ∧
     walletBalance u' = (walletBalance u + a)%float ∧
     totalInvested u' = totalInvested u ∧
     (∀ v, v ≠ cu_userId cu → users s' !! v = users s !! v) ∧
     projects s' = projects s ∧
     transactions s' = transactions s ++ [t] ∧
     userId t = cu_userId cu ∧ amount t = a ∧ tx_type t = "deposit" ∧
     tx_status t = "completed" ∧ date t = now ∧
     wr_walletBalance resp = walletBalance u').
Proof.
  intros Hu. rewrite !deposit_eq, Hu. split.
  - by intros ->.
  - intros ->.
    eexists _, _, _, _. split; [reflexivity|]. cbn.
    rewrite lookup_alter_eq, Hu. cbn. repeat split; try reflexivity.
    intros v Hv. by rewrite lookup_alter_ne.
Qed.

Lemma deposit_contract_open_store :
  ∃ s' resp, deposit 250 alice_token 9%N open_store = (s', inr resp) ∧
             wr_walletBalance resp = 750%float.
Proof.
  destruct (proj2 (deposit_contract 250 alice_token 9%N open_store alice_500 eq_refl))
    as (s' & resp & u' & t & Hd & Hu' & Hw & _ & _ & _ & _ & _ & _ & _ & _ & _ & Hr);
    [reflexivity|].
  exists s', resp. split; [exact Hd|]. rewrite Hr, Hw. reflexivity.
Defined.

(** X9. In a reachable store no stored transaction has the id the next insert
    hands out, so the transaction [deposit] and [withdraw] read back for their
    response is the one they have just inserted, the last of the ledger. *)
Theorem wallet_response_shows_inserted_transaction s a cu now s' resp :
  reachable s →
  (deposit a cu now s = (s', inr resp) →
   wr_transaction resp = wallet_transaction (cu_userId cu) a "deposit" now (next_oid s) ∧
   last (transactions s') = Some (wr_transaction resp)) ∧
  (withdraw a cu now s = (s', inr resp) →
   wr_transaction resp = wallet_transaction (cu_userId cu) a "withdraw" now (next_oid s) ∧
   last (transactions s') = Some (wr_transaction resp)).
Proof.
  intros Hs. pose proof (tx_ids_below _ (reachable_ids_below s Hs)) as Hid.
  assert (∀ ty, List.find (has_id (next_oid s))
                  (transactions s ++ [wallet_transaction (cu_userId cu) a ty now (next_oid s)])
                = Some (wallet_transaction (cu_userId cu) a ty now (next_oid s))) as Hfind.
  { intros ty. apply find_has_id_snoc; [|done]. intros t Ht%Hid. lia. }
  rewrite deposit_eq, withdraw_eq. split.
  - destruct (a <=? 0)%float; [done|].
    destruct (users s !! cu_userId cu) as [u|]; [|done].
    intros [= <- <-]. cbn. rewrite Hfind. cbn. by rewrite last_snoc.
  - destruct (a <=? 0)%float; [done|].
    destruct (users s !! cu_userId cu) as [u|]; [|done].
    destruct (walletBalance u <? a)%float; [done|].
    intros [= <- <-]. cbn. rewrite Hfind. cbn. by rewrite last_snoc.
Qed.

Lemma wallet_response_shows_inserted_transaction_open_store :
  ∃ s' resp, deposit 250 alice_token 9%N open_store = (s', inr resp) ∧
             wr_transaction resp = wallet_transaction 1%N 250 "deposit" 9%N 4%N.
Proof.
  destruct (deposit 250 alice_token 9%N open_store) as [s' [e|resp]] eqn:Hd;
    [vm_compute in Hd; discriminate|].
  exists s', resp. split; [reflexivity|].
  exact (proj1 (proj1 (wallet_response_shows_inserted_transaction open_store 250%float alice_token
                         9%N s' resp reachable_open_store) Hd)).
Defined.

(** ** Mobile money *)

(** X10. [mobile_money_withdraw], for a user of the store: an amount above the
    balance fails [InsufficientFunds] (this test comes first, whatever the
    amount), then an amount that is not positive fails [InvalidAmount] and one
    below 500 fails [MinimumWithdrawal], all without a write; otherwise the
    wallet is debited at once by the amount, one ["mobile_withdrawal"]
    transaction is appended with status ["pending"] and a reference ["WFW"]
    followed by the clock, and the balance returned is the stored one. *)
Theorem mobile_money_withdraw_contract phone a cu now s u :
  users s !! cu_userId cu = Some u →
  ((walletBalance u <? a)%float = true →
   mobile_money_withdraw phone a cu now s = (s, inl InsufficientFunds)) ∧
  ((walletBalance u <? a)%float = false → (a <=? 0)%float = true →
   mobile_money_withdraw phone a cu now s = (s, inl InvalidAmount)) ∧
  ((walletBalance u <? a)%float = false → (a <=? 0)%float = false →
   (a <? 500)%float = true →
   mobile_money_withdraw phone a cu now s = (s, inl MinimumWithdrawal)) ∧
  ((walletBalance u <? a)%float = false → (a <=? 0)%float = false →
   (a <? 500)%float = false →
   ∃ s' resp u' t,
     mobile_money_withdraw phone a cu now s = (s', inr resp) ∧
     users s' !! cu_userId cu = Some u' ∧
     walletBalance u' = (walletBalance u - a)%float ∧
     (∀ v, v ≠ cu_userId cu → users s' !! v = users s !! v) ∧
     projects s' = projects s ∧
     transactions s' = transactions s ++ [t] ∧
     userId t = cu_userId cu ∧ amount t = a ∧ tx_type t = "mobile_withdrawal" ∧
     tx_status t = "pending" ∧
     transaction_ref t = Some ("WFW" ++ strftime now)%string ∧
     mw_transaction_ref resp = ("WFW" ++ strftime now)%string ∧
     mw_new_balance resp = walletBalance u').
Proof.
  intros Hu. rewrite !mobile_money_withdraw_eq, Hu. repeat split.
  - by intros ->.
  - by intros -> ->.
  - by intros -> -> ->.
  - intros -> -> ->.
    eexists _, _, _, _. split; [reflexivity|]. cbn.
    rewrite lookup_alter_eq, Hu. cbn. rewrite sub_add_opp. repeat split; try reflexivity.
    intros v Hv. by rewrite lookup_alter_ne.
Qed.

(** Alice holds 500 in [open_store]: 600 is refused for lack of funds, 400 for
    being under the minimum. *)
Lemma mobile_money_withdraw_contract_open_store :
  mobile_money_withdraw "677000000" 600 alice_token 9%N open_store
  = (open_store, inl InsufficientFunds) ∧
  mobile_money_withdraw "677000000" 400 alice_token 9%N open_store
  = (open_store, inl MinimumWithdrawal).
Proof.
  split.
  - refine (proj1 (mobile_money_withdraw_contract "677000000" 600 alice_token 9%N open_store
                     alice_500 _) _); [vm_compute; reflexivity|reflexivity].
  - refine (proj1 (proj2 (proj2 (mobile_money_withdraw_contract "677000000" 400 alice_token
                     9%N open_store alice_500 _))) _ _ _);
      [vm_compute; reflexivity|reflexivity..].
Defined.

(** X11. [mobile_money_deposit] answers [NotFound] for a user who is not in the
    store, [InvalidAmount] for an amount that is not positive and
    [MinimumDeposit] for one below 100, all without a write; from 100 on it
    credits the wallet, appends the completed ["momo_deposit"] transaction and
    appends to [momo_transfers] one completed record with the same amount,
    user and reference, which is ["WFD"] followed by the clock. *)
Theorem mobile_money_deposit_contract phone a cu now s :
  (users s !! cu_userId cu = None →
   mobile_money_deposit phone a cu now s = (s, inl NotFound)) ∧
  (is_Some (users s !! cu_userId cu) → (a <=? 0)%float = true →
   mobile_money_deposit phone a cu now s = (s, inl InvalidAmount)) ∧
  (is_Some (users s !! cu_userId cu) → (a <=? 0)%float = false →
   (a <? 100)%float = true →
   mobile_money_deposit phone a cu now s = (s, inl MinimumDeposit)) ∧
  (∀ u, users s !! cu_userId cu = Some u → (a <=? 0)%float = false →
   (a <? 100)%float = false →
   ∃ s' t m,
     mobile_money_deposit phone a cu now s
     = (s', inr {| md_transaction_ref := ("WFD" ++ strftime now)%string; md_amount := a |}) ∧
     users s' !! cu_userId cu = Some (inc_walletBalance a u) ∧
     transactions s' = transactions s ++ [t] ∧
     momo_transfers s' = momo_transfers s ++ [m] ∧
     tx_type t = "momo_deposit" ∧ tx_status t = "completed" ∧
     amount t = a ∧ mt_amount m = a ∧
     userId t = cu_userId cu ∧ mt_user_id m = cu_userId cu ∧
     transaction_ref t = Some (mt_transaction_ref m) ∧
     mt_transaction_ref m = ("WFD" ++ strftime now)%string ∧ mt_status m = "completed").
Proof.
  rewrite !mobile_money_deposit_eq. repeat split.
  - by intros ->.
  - by intros [u ->] ->.
  - by intros [u ->] -> ->.
  - intros u Hu Ha Hb. rewrite Hu, Ha, Hb.
    eexists _, _, _. split; [reflexivity|]. cbn.
    rewrite lookup_alter_eq, Hu. by repeat split.
Qed.

Lemma mobile_money_deposit_contract_open_store :
  mobile_money_deposit "677000000" 60 alice_token 9%N open_store
  = (open_store, inl MinimumDeposit).
Proof.
  refine (proj1 (proj2 (proj2 (mobile_money_deposit_contract "677000000" 60 alice_token 9%N
                                 open_store))) _ _ _); [|reflexivity..].
  exists alice_500. vm_compute. reflexivity.
Defined.

(** ** The balance a response shows is the balance stored *)

Lemma get_wallet_eq cu s :
  get_wallet cu s =
  match users s !! cu_userId cu with
  | None => (s, inl InternalError)
  | Some u =>
      (s, inr {| wv_walletBalance := walletBalance u; wv_totalInvested := totalInvested u;
                 wv_totalReturns := totalReturns u |})
  end.
Proof. unfold get_wallet. unfold_prims. cbn. by destruct (users s !! cu_userId cu). Qed.

(** X12. After a successful [deposit], [withdraw], [invest_in_project] or
    [mobile_money_withdraw], [get_wallet] for the same user answers with the
    very balance (and, for an investment, the total invested) that the response
    of the operation carried. *)
Theorem response_balance_is_stored_balance cu now s :
  (∀ a s' resp, deposit a cu now s = (s', inr resp) →
     ∃ w, get_wallet cu s' = (s', inr w) ∧ wv_walletBalance w = wr_walletBalance resp) ∧
  (∀ a s' resp, withdraw a cu now s = (s', inr resp) →
     ∃ w, get_wallet cu s' = (s', inr w) ∧ wv_walletBalance w = wr_walletBalance resp) ∧
  (∀ pid a s' resp, invest_in_project pid a cu now s = (s', inr resp) →
     ∃ w, get_wallet cu s' = (s', inr w) ∧ wv_walletBalance w = ir_walletBalance resp ∧
          wv_totalInvested w = ir_totalInvested resp) ∧
  (∀ phone a s' resp, mobile_money_withdraw phone a cu now s = (s', inr resp) →
     ∃ w, get_wallet cu s' = (s', inr w) ∧ wv_walletBalance w = mw_new_balance resp).
Proof.
  repeat split; intros *;
    rewrite ?deposit_eq, ?withdraw_eq, ?invest_in_project_eq, ?mobile_money_withdraw_eq;
    repeat case_match; try done; intros [= <- <-]; rewrite get_wallet_eq; cbn;
    rewrite lookup_alter_eq; simplify_option_eq; rewrite ?sub_add_opp; eauto.
Qed.

Lemma response_balance_is_stored_balance_open_store :
  ∃ w, get_wallet alice_token (fst (invest_in_project 2%N 100 alice_token 9%N open_store))
       = (fst (invest_in_project 2%N 100 alice_token 9%N open_store), inr w) ∧
       wv_walletBalance w = 400%float ∧ wv_totalInvested w = 100%float.
Proof.
  refine (proj1 (proj2 (proj2 (response_balance_is_stored_balance alice_token 9%N open_store)))
            2%N 100%float _ {| ir_walletBalance := 400; ir_totalInvested := 100 |} _).
  vm_compute. reflexivity.
Defined.

(** ** Who can change what *)

(** X13. A request leaves the money of every account other than the one its
    token names as it was: the account is still there, with the same wallet
    balance, total invested and total returns.  (An administrator's
    [verify_user] or [block_user] on it only changes its flags.) *)
Theorem other_accounts_keep_their_money s r now v u :
  reachable s → users s !! v = Some u →
  (∀ c, payload_of r = Some c → cu_userId c ≠ v) →
  ∃ u', users (step r now s) !! v = Some u' ∧
        walletBalance u' = walletBalance u ∧ totalInvested u' = totalInvested u ∧
        totalReturns u' = totalReturns u.
Proof.
  intros Hs Hu Hc.
  pose proof (user_ids_below _ (reachable_ids_below s Hs) _ _ Hu) as Hlt.
  destruct (reachable_invariants s Hs) as (Hm & _).
  step_cases r; try specialize (Hc _ eq_refl).
  all: try (exists u; by rewrite ?lookup_alter_ne by done).
  all: try pending_momo_absurd.
  all: rewrite ?lookup_alter, ?lookup_insert.
  all: match goal with
       | |- context [decide (?a = ?b)] => destruct (decide (a = b)) as [Heq|]
       end; try lia; try subst; rewrite ?Hu; cbn; eauto.
Qed.

(** After alice's investment the administrator's account is as it was. *)
Lemma other_accounts_keep_their_money_open_store :
  ∃ u', users (step (Invest alice_token 2%N 100) 9%N open_store) !! 0%N = Some u' ∧
        walletBalance u' = 0%float ∧ totalInvested u' = 0%float ∧
        totalReturns u' = 0%float.
Proof.
  refine (other_accounts_keep_their_money open_store (Invest alice_token 2%N 100) 9%N 0%N
            {| name := "admin"; email := "admin@wefund"; age := 30; role := "member";
               walletBalance := 0; totalInvested := 0; totalReturns := 0;
               user_verified := false; user_blocked := false; createdAt := 1%N |}
            reachable_open_store _ _).
  - vm_compute. reflexivity.
  - intros c [= <-]. discriminate.
Defined.

Ltac open_endpoint :=
  unfold handle; rewrite void_eq, ?authenticated_eq;
  rewrite ?deposit_eq, ?withdraw_eq, ?invest_in_project_eq, ?mobile_money_deposit_eq,
    ?mobile_money_withdraw_eq, ?manual_confirm_deposit_eq, ?register_eq, ?create_project_eq,
    ?verify_project_eq, ?block_project_eq, ?delete_project_eq, ?review_project_eq,
    ?verify_user_eq, ?block_user_eq.

(** X14. Every route behind [get_current_user] answers [Unauthorized] when
    the account of the token is not in the store and [Forbidden] when it is
    blocked, before its handler runs: the store is left as it was. *)
Theorem authentication_gate r c now s :
  payload_of r = Some c →
  (users s !! cu_userId c = None → handle r now s = (s, inl Unauthorized)) ∧
  (∀ u, users s !! cu_userId c = Some u → user_blocked u = true →
        handle r now s = (s, inl Forbidden)).
Proof.
  intros Hr. destruct r; cbn in Hr; simplify_eq; unfold handle;
    rewrite void_eq, authenticated_eq; (split; [intros ->; done|intros u -> ->; done]).
Qed.

Lemma authentication_gate_unknown_account :
  handle (Deposit (mkCurrentUser 7%N "member") 100) 9%N open_store
  = (open_store, inl Unauthorized).
Proof.
  refine (proj1 (authentication_gate (Deposit (mkCurrentUser 7%N "member") 100)
                   (mkCurrentUser 7%N "member") 9%N open_store eq_refl) _).
  vm_compute. reflexivity.
Defined.

(** X15. Once an administrator's [block_user] has blocked an account, every
    request made with that account's token is answered [Forbidden] and changes
    nothing, whatever the request; the account keeps its balance. *)
Theorem blocked_account_is_locked_out admin v now s s1 r c now' :
  handle (BlockUser admin v true) now s = (s1, inr tt) →
  payload_of r = Some c → cu_userId c = v →
  handle r now' s1 = (s1, inl Forbidden) ∧
  ∃ u, users s !! v = Some u ∧ users s1 !! v = Some (set_user_blocked true u).
Proof.
  intros Hb Hr Hc.
  assert (∃ u, users s !! v = Some u ∧ users s1 !! v = Some (set_user_blocked true u) )
    as (u & Hu & Hu1).
  { revert Hb. open_endpoint. intros Hb. repeat case_match; simplify_eq/=.
    eexists. split; [reflexivity|].
    match goal with H : users s !! cu_userId c = Some _ |- _ =>
      by rewrite lookup_alter_eq, H end. }
  split; [|eauto].
  subst v. destruct r; cbn in Hr; simplify_eq; unfold handle;
    by rewrite void_eq, authenticated_eq, Hu1.
Qed.

(** The administrator blocks alice; her withdrawal is then refused. *)
Lemma blocked_account_is_locked_out_open_store :
  handle (Withdraw alice_token 50) 10%N (step (BlockUser admin_token 1%N true) 9%N open_store)
  = (step (BlockUser admin_token 1%N true) 9%N open_store, inl Forbidden).
Proof.
  refine (proj1 (blocked_account_is_locked_out admin_token 1%N 9%N open_store _
                   (Withdraw alice_token 50) alice_token 10%N _ eq_refl eq_refl)).
  vm_compute. reflexivity.
Defined.

(** X16. The routes that start with [require_admin] (creating, verifying,
    blocking, reviewing and deleting a project, verifying and blocking a user,
    confirming a deposit) refuse a token whose role is not ["admin"] and leave
    the store as it was. *)
Theorem admin_routes_need_admin_role r c now s :
  admin_request r = true → payload_of r = Some c → cu_role c ≠ "admin" →
  ∃ e, e ∈ [Unauthorized; Forbidden] ∧ handle r now s = (s, inl e).
Proof.
  intros Ha Hr Hrole.
  destruct r; cbn in Ha, Hr; try discriminate; simplify_eq; open_endpoint;
    rewrite decide_True by done;
    (destruct (users s !! cu_userId c) as [u|]; [destruct (user_blocked u)|]);
    eexists; (split; [|reflexivity]); set_solver.
Qed.

Lemma admin_routes_need_admin_role_alice :
  ∃ e, e ∈ [Unauthorized; Forbidden] ∧
       handle (DeleteProject alice_token 2%N) 9%N open_store = (open_store, inl e).
Proof.
  refine (admin_routes_need_admin_role (DeleteProject alice_token 2%N) alice_token 9%N
            open_store eq_refl eq_refl _).
  discriminate.
Defined.

(** ** The life of a project *)

(** X17. A project just created by [create_project] takes no investment: until
    it is verified or reviewed, [invest_in_project] answers [ProjectNotOpen]
    for any amount and any user, and changes nothing. *)
Theorem new_project_takes_no_investment d cu s s1 pid :
  create_project d cu s = (s1, inr pid) →
  ∀ a c now, invest_in_project pid a c now s1 = (s1, inl ProjectNotOpen).
Proof.
  rewrite create_project_eq. destruct (decide (cu_role cu ≠ "admin")); [done|].
  intros [= <- <-] a c now. rewrite invest_in_project_eq. cbn.
  by rewrite lookup_insert_eq.
Qed.

Lemma new_project_takes_no_investment_open_store :
  invest_in_project 4%N 100 alice_token 10%N
    (fst (create_project (mkProjectCreate "Well" 800 10) admin_token open_store))
  = (fst (create_project (mkProjectCreate "Well" 800 10) admin_token open_store),
     inl ProjectNotOpen).
Proof.
  refine (new_project_takes_no_investment (mkProjectCreate "Well" 800 10) admin_token
            open_store _ 4%N _ 100 alice_token 10%N).
  vm_compute. reflexivity.
Defined.

(** X18. [verify_project] by an administrator opens the project whatever its
    status was, closed after reaching its goal included: afterwards its status
    is ["open"] and it is verified, while its funded amount, goal, investors
    and blocked flag are as before, so that investments are taken again. *)
Theorem verify_project_reopens pid cu s p :
  cu_role cu = "admin" → projects s !! pid = Some p →
  ∃ s' p',
    verify_project pid cu s = (s', inr (Some p')) ∧ projects s' !! pid = Some p' ∧
    status p' = "open" ∧ project_verified p' = true ∧
    project_blocked p' = project_blocked p ∧ fundedAmount p' = fundedAmount p ∧
    fundingGoal p' = fundingGoal p ∧ investors p' = investors p ∧
    users s' = users s ∧ transactions s' = transactions s ∧
    ∀ a c now u,
      users s !! cu_userId c = Some u →
      (a <? minInvestment p)%float = false → (walletBalance u <? a)%float = false →
      ∃ s'' resp, invest_in_project pid a c now s' = (s'', inr resp).
Proof.
  intros Hrole Hp. rewrite verify_project_eq.
  rewrite decide_False by (intros ?; done). unfold set_projects.
  rewrite lookup_alter_eq, Hp.
  eexists _, _. split; [reflexivity|]. cbn [projects users transactions].
  rewrite lookup_alter_eq, Hp.
  split_and!; try reflexivity.
  intros a c now u Hu Ha Hb. rewrite invest_in_project_eq. cbn [projects users].
  rewrite lookup_alter_eq, Hp, Hu. cbn [fmap option_fmap option_map status minInvestment
                                        set_status set_project_verified].
  rewrite decide_False by (intros ?; done). rewrite Ha, Hb. eauto.
Qed.

(** The project closed at 1000 of 1000 is open again after [verify_project]. *)
Lemma verify_project_reopens_closed_project :
  ∃ s' p',
    verify_project 2%N admin_token (step (Invest alice_token 2%N 100) 8%N nearly_funded_store)
    = (s', inr (Some p')) ∧
    status p' = "open" ∧ fundedAmount p' = 1000%float ∧ fundingGoal p' = 1000%float.
Proof.
  destruct (verify_project_reopens 2%N admin_token
              (step (Invest alice_token 2%N 100) 8%N nearly_funded_store)
              {| title := "Solar farm"; fundingGoal := 1000; fundedAmount := 1000;
                 minInvestment := 50; status := "closed"; project_verified := true;
                 project_blocked := false;
                 investors := [{| inv_userId := 1%N; inv_amount := 900; inv_date := 7%N |};
                               {| inv_userId := 1%N; inv_amount := 100; inv_date := 8%N |}] |})
    as (s' & p' & Hv & _ & Hst & _ & _ & Hf & Hg & _).
  - reflexivity.
  - vm_compute. reflexivity.
  - exists s', p'. split; [exact Hv|]. split; [exact Hst|]. split; [exact Hf|exact Hg].
Defined.

(** X19. [delete_project] by an administrator removes the project document
    and nothing else: wallets, totals invested and the transactions that refer
    to the project stay as they are (nothing is paid back), other projects are
    untouched, and an investment in the deleted project fails [NotFound]. *)
Theorem delete_project_forgets_funding pid cu s :
  cu_role cu = "admin" →
  ∃ s',
    delete_project pid cu s = (s', inr tt) ∧ projects s' !! pid = None ∧
    (∀ q, q ≠ pid → projects s' !! q = projects s !! q) ∧
    users s' = users s ∧ transactions s' = transactions s ∧
    ∀ a c now, invest_in_project pid a c now s' = (s', inl NotFound).
Proof.
  intros Hrole. rewrite delete_project_eq.
  rewrite decide_False by (intros ?; done).
  eexists. split; [reflexivity|]. unfold set_projects. cbn [projects users transactions].
  split_and!; try reflexivity.
  - apply lookup_delete_eq.
  - intros q Hq. by rewrite lookup_delete_ne.
  - intros a c now. rewrite invest_in_project_eq. cbn [projects].
    by rewrite lookup_delete_eq.
Qed.

(** Deleting the project funded with alice's 900 leaves her wallet at 600 and
    her investment in the ledger. *)
Lemma delete_project_forgets_funding_nearly_funded :
  ∃ s',
    delete_project 2%N admin_token nearly_funded_store = (s', inr tt) ∧
    projects s' !! 2%N = None ∧
    walletBalance <$> users s' !! 1%N = Some 600%float ∧
    length (investments_in_project 2%N (transactions s')) = 1%nat.
Proof.
  destruct (delete_project_forgets_funding 2%N admin_token nearly_funded_store eq_refl)
    as (s' & Hd & Hp & _ & Hu & Ht & _).
  exists s'. rewrite Hu, Ht. split_and!; [done|done|vm_compute; reflexivity..].
Defined.

(** ** Registration *)

Lemma find_email_some (e : string) (m : gmap ObjectId User) id u :
  m !! id = Some u → email u = e →
  ∃ kv, List.find (λ kv, String.eqb (email (snd kv)) e) (map_to_list m) = Some kv.
Proof.
  intros Hu He.
  destruct (List.find _ _) as [kv|] eqn:Hf; [by eexists|].
  by destruct (find_email_none e m Hf id u Hu).
Qed.

Lemma find_email_absent (e : string) (m : gmap ObjectId User) :
  (∀ id u, m !! id = Some u → email u ≠ e) →
  List.find (λ kv, String.eqb (email (snd kv)) e) (map_to_list m) = None.
Proof.
  intros Hm. destruct (List.find _ _) as [[id u]|] eqn:Hf; [|done].
  apply find_some in Hf as [Hin He]. cbn in He. apply String.eqb_eq in He.
  apply list_elem_of_In, elem_of_map_to_list in Hin. by destruct (Hm id u Hin).
Qed.

(** X20. [register] refuses an age below 15 with [TooYoung] and an email that
    an account of the store already has with [EmailTaken], without a write;
    otherwise, when the age fits the eight bytes of a BSON integer, it stores,
    under the next id, an account with role ["member"], wallet balance, total
    invested and total returns 0, neither verified nor blocked, and this
    account passes [get_current_user] at once; an age from 2^63 on makes
    [insert_one] raise, and nothing is stored. *)
Theorem register_contract d now s :
  (ur_age d < 15 → register d now s = (s, inl TooYoung)) ∧
  (15 <= ur_age d → ∀ id u, users s !! id = Some u → email u = ur_email d →
   register d now s = (s, inl EmailTaken)) ∧
  (15 <= ur_age d < 2 ^ 63 →
   (∀ id u, users s !! id = Some u → email u ≠ ur_email d) →
   ∃ s1,
     register d now s = (s1, inr (next_oid s)) ∧
     users s1 !! next_oid s
     = Some {| name := ur_name d; email := ur_email d; age := ur_age d; role := "member";
               walletBalance := 0; totalInvested := 0; totalReturns := 0;
               user_verified := false; user_blocked := false; createdAt := now |} ∧
     (∀ v, v ≠ next_oid s → users s1 !! v = users s !! v) ∧
     projects s1 = projects s ∧ transactions s1 = transactions s ∧
     ∀ role, get_current_user (mkCurrentUser (next_oid s) role) s1
             = (s1, inr (mkCurrentUser (next_oid s) role))) ∧
  (2 ^ 63 <= ur_age d →
   (∀ id u, users s !! id = Some u → email u ≠ ur_email d) →
   register d now s = (s, inl InternalError)).
Proof.
  rewrite !register_eq. split_and!.
  - intros Ha. by rewrite decide_True.
  - intros Ha id u Hu He. rewrite decide_False by lia.
    by destruct (find_email_some _ _ _ _ Hu He) as (kv & ->).
  - intros Ha Hm. rewrite decide_False by lia. rewrite find_email_absent by done.
    rewrite decide_True by lia.
    eexists. split; [reflexivity|]. cbn [users projects transactions].
    rewrite lookup_insert_eq. split_and!; try reflexivity.
    + intros v Hv. by rewrite lookup_insert_ne.
    + intros role. unfold get_current_user. unfold_prims. cbn.
      by rewrite lookup_insert_eq.
  - intros Ha Hm. rewrite decide_False by lia. rewrite find_email_absent by done.
    by rewrite decide_False by lia.
Qed.

Lemma register_contract_open_store :
  register (mkUserRegister "eve" "alice@wefund" 33) 9%N open_store
  = (open_store, inl EmailTaken).
Proof.
  refine (proj1 (proj2 (register_contract (mkUserRegister "eve" "alice@wefund" 33) 9%N
                          open_store)) _ 1%N alice_500 _ _).
  - cbn. lia.
  - vm_compute. reflexivity.
  - reflexivity.
Defined.

(** ** Returns *)

(** X22. No route pays returns: in every reachable store the [totalReturns] of
    every account is 0, as [register] wrote it. *)
Theorem returns_are_never_paid s :
  reachable s → ∀ id u, users s !! id = Some u → totalReturns u = 0%float.
Proof.
  induction 1 as [|r now s Hs IH].
  - intros id u Hu. cbn in Hu. by rewrite lookup_empty in Hu.
  - destruct (reachable_effect r now s Hs)
      as [->|u Hus _ _ _ Hret _ _ _ _
         |u t _ _ Hus _ _ _ _ _ _ _
         |u p t now' _ _ Hus _ _ _ pid _ _ _ _ _ _ _
         |p _ _ _ _ Hus _ _
         |pid f _ _ Hus _ _
         |pid _ Hus _ _
         |uid f Hus Hf _ _ _]; rewrite ?Hus; try done.
    + by apply insert_all.
    + apply alter_all; [done|]. intros x Hx. by apply IH in Hx.
    + apply alter_all; [done|]. intros x Hx. by apply IH in Hx.
    + apply alter_all; [done|]. intros x Hx. apply IH in Hx.
      by destruct (Hf x) as (_ & _ & _ & _ & ->).
Qed.

Lemma returns_are_never_paid_nearly_funded :
  ∃ u, users nearly_funded_store !! 1%N = Some u ∧ totalInvested u = 900%float ∧
       totalReturns u = 0%float.
Proof.
  eexists. split; [vm_compute; reflexivity|]. split; [reflexivity|].
  refine (returns_are_never_paid nearly_funded_store reachable_nearly_funded_store 1%N _ _).
  vm_compute. reflexivity.
Defined.

(** ** What the investment gate does not look at *)

(** X24. [invest_in_project] never reads the investor's [verified] flag:
    setting it either way leaves the answer of an investment unchanged, so an
    account that has not been verified invests like any other. *)
Theorem invest_ignores_user_verification pid a cu now s b :
  snd (invest_in_project pid a cu now
         (set_users (alter (set_user_verified b) (cu_userId cu)) s))
  = snd (invest_in_project pid a cu now s).
Proof.
  rewrite !invest_in_project_eq. cbn [users projects set_users].
  rewrite lookup_alter_eq.
  destruct (projects s !! pid) as [p|]; [|done].
  destruct (decide (status p ≠ "open")); [done|].
  destruct (a <? minInvestment p)%float; [done|].
  destruct (users s !! cu_userId cu) as [u|]; [|done]. cbn.
  destruct (walletBalance u <? a)%float; done.
Qed.

